(** * ASR product recognition: the function-calling loop of [ProductMatcher]

    A shallow embedding of [src/product_matcher.py] (the orchestration loop
    [ProductMatcher.process_transcript] and the tool handler
    [ProductMatcher._search_products_function]), of the data contracts of
    [src/models.py] it constructs, and of the guard of
    [EmbeddingGenerator.generate_embedding] in [src/embeddings.py].

    Conventions of the embedding.
    - A Python [str] is a [string], read as a sequence of code points
      below 256.
    - A Python [float] is a binary64 number; a finite one is modelled by
      the rational [Q] it denotes exactly, and [to_double] maps a rational
      to the nearest such number, ties to the even significand.  The
      infinities, not-a-number and the sign of zero are not modelled, and
      neither is the overflow of a number beyond the binary64 range.
      [round(x, 2)] is the double nearest to the decimal with two places
      that is nearest to [x], ties to the even digit.
    - A value decoded from JSON (and, more generally, a dynamically typed
      Python value built from JSON) is a [json].
    - Exceptions are values of [exn]; a computation that may raise returns
      a [result].
    - The remote services (chat completion, embeddings, vector search) are
      oracles that see the history of all calls made so far; every call
      and its reply is appended to a [trace].
    - [json.loads] and the type coercions of pydantic are library code and
      are taken as parameters. *)

From Stdlib Require Import List String Ascii Bool ZArith QArith Qabs Lia Lqa Arith.
Import ListNotations.
Local Open Scope string_scope.
Local Open Scope Z_scope.
Local Open Scope list_scope.

Set Implicit Arguments.
Local Set Warnings "-register-all".

(** ** Python values and exceptions *)

Inductive json : Type :=
| JNull
| JBool (b : bool)
| JNum (x : Q)
| JStr (s : string)
| JArr (items : list json)
| JObj (fields : list (string * json)).

(** Truth value of a Python object, as [if not text] tests it. *)
Definition truthy (v : json) : bool :=
  match v with
  | JNull => false
  | JBool b => b
  | JNum x => negb (Qeq_bool x 0)
  | JStr s => negb (String.eqb s "")
  | JArr items => match items with [] => false | _ => true end
  | JObj fields => match fields with [] => false | _ => true end
  end.

Inductive collaborator := LanguageModel | Embedding | VectorSearch.

Inductive exn : Type :=
| ValueError (msg : string)
| JSONDecodeError
| AttributeError
| TypeError
| IndexError
| ValidationError
| CollaboratorError (who : collaborator) (msg : string).

Inductive result (A : Type) : Type :=
| Ok (a : A)
| Raise (e : exn).
Arguments Ok {A} a.
Arguments Raise {A} e.

Definition bind {A B} (r : result A) (k : A -> result B) : result B :=
  match r with
  | Ok a => k a
  | Raise e => Raise e
  end.

Notation "x <- c ;; k" := (bind c (fun x => k))
  (at level 61, c at next level, right associativity).

(** A list comprehension whose element expression may raise: the first
    failure aborts the comprehension. *)
Fixpoint comprehension {A B} (f : A -> result B) (l : list A) : result (list B) :=
  match l with
  | [] => Ok []
  | a :: l' => b <- f a ;; bs <- comprehension f l' ;; Ok (b :: bs)
  end.

(** ** Strings *)

(** [str.isspace] on the code points below 256. *)
Definition is_space (c : ascii) : bool :=
  let n := nat_of_ascii c in
  (((9 <=? n) && (n <=? 13)) || ((28 <=? n) && (n <=? 32))
   || (n =? 133) || (n =? 160))%nat.

Fixpoint lstrip (s : string) : string :=
  match s with
  | EmptyString => EmptyString
  | String c s' => if is_space c then lstrip s' else s
  end.

Fixpoint rstrip (s : string) : string :=
  match s with
  | EmptyString => EmptyString
  | String c s' =>
      match rstrip s' with
      | EmptyString => if is_space c then EmptyString else String c EmptyString
      | t => String c t
      end
  end.

(** [text.strip()] *)
Definition strip (s : string) : string := rstrip (lstrip s).

(** [not text or not text.strip()] *)
Definition is_blank (text : string) : bool :=
  String.eqb text "" || String.eqb (strip text) "".

Fixpoint find_from (c : ascii) (s : string) (i : Z) : Z :=
  match s with
  | EmptyString => -1
  | String a s' => if Ascii.eqb a c then i else find_from c s' (i + 1)
  end.

Fixpoint rfind_from (c : ascii) (s : string) (i last : Z) : Z :=
  match s with
  | EmptyString => last
  | String a s' => rfind_from c s' (i + 1) (if Ascii.eqb a c then i else last)
  end.

(** [s.find(c)] and [s.rfind(c)] for a one-character needle: the index of
    the first (last) occurrence, or -1. *)
Definition find (s : string) (c : ascii) : Z := find_from c s 0.
Definition rfind (s : string) (c : ascii) : Z := rfind_from c s 0 (-1).

(** [s[start:stop]] for [0 <= start <= stop]. *)
Definition slice (s : string) (start stop : Z) : string :=
  substring (Z.to_nat start) (Z.to_nat (stop - start)) s.

(** ** Dictionaries decoded from JSON *)

Fixpoint lookup (key : string) (fields : list (string * json)) : option json :=
  match fields with
  | [] => None
  | (k, v) :: fields' => if String.eqb k key then Some v else lookup key fields'
  end.

(** [d.get(key, default)]; an object that is not a dict has no [get]. *)
Definition dict_get (d : json) (key : string) (default : json) : result json :=
  match d with
  | JObj fields =>
      Ok (match lookup key fields with Some v => v | None => default end)
  | _ => Raise AttributeError
  end.

(** ** Rounding *)

(** The integer nearest to [p / q] for [0 < q], ties to the even one. *)
Definition round_half_even (p q : Z) : Z :=
  let f := p / q in
  let r := p mod q in
  match 2 * r ?= q with
  | Lt => f
  | Gt => f + 1
  | Eq => if Z.even f then f else f + 1
  end.

(** *** Binary64 numbers

    Every finite double is a multiple of [2^-1074], the smallest positive
    one; [grid] is the number of these steps in a unit. *)
Definition grid : positive := Z.to_pos (2 ^ 1074).

(** For the rational [p / b] counted in steps of [2^-1074]: the exponent
    [e] for which a double near [p / b] is a multiple of [2^e] steps.  It
    is [floor (log2 (p / b)) - 52], so that the significand has 53 bits,
    and 0 in the subnormal range. *)
Definition ulp_exponent (p b : Z) : Z :=
  let d := Z.log2 (Z.abs p) - Z.log2 b in
  let l := if b * 2 ^ d <=? Z.abs p then d else d - 1 in
  Z.max (l - 52) 0.

(** The double nearest to [x], ties to the even significand: what
    [float(..)] makes of a decimal literal and what a correctly rounded
    operation returns for the exact result [x]. *)
Definition to_double (x : Q) : Q :=
  let p := Qnum x * Zpos grid in
  let b := Zpos (Qden x) in
  let e := ulp_exponent p b in
  Qred (Qmake (round_half_even p (b * 2 ^ e) * 2 ^ e) grid).

(** [round(x, 2)] for a double [x]: the exact value of [x] is rounded to
    two decimal places, ties to even, and the decimal obtained is
    converted back to a double. *)
Definition round2 (x : Q) : Q :=
  to_double (Qmake (round_half_even (Qnum x * 100) (Zpos (Qden x))) 100).

(** The same, said without the algorithm.  [y] is the double nearest to
    [q]: a multiple [m * 2^e] of [2^-1074], where [e] is fixed by the
    magnitude of [q] so that the significand [m] has at most 53 bits
    ([e = 0] in the subnormal range), within half of [2^e] steps of [q],
    and with an even significand when [q] is half way between two
    doubles. *)
Definition nearest_double (q y : Q) : Prop :=
  exists m e : Z,
    0 <= e /\ Z.abs m <= 2 ^ 53
    /\ (y == (m * 2 ^ e) # grid)%Q
    /\ (e = 0 \/ ((2 ^ (e + 52)) # grid <= Qabs q)%Q)
    /\ (Qabs q < (2 ^ (e + 53)) # grid)%Q
    /\ (2 * Qabs (y - q) <= (2 ^ e) # grid)%Q
    /\ ((2 * Qabs (y - q) == (2 ^ e) # grid)%Q -> Z.even m = true).

(** [k] is the integer nearest to [100 * x], the even one when [100 * x]
    is half way between two integers. *)
Definition nearest_hundredth (x : Q) (k : Z) : Prop :=
  (2 * Qabs (100 * x - inject_Z k) <= 1)%Q
  /\ ((2 * Qabs (100 * x - inject_Z k) == 1)%Q -> Z.even k = true).

(** [c] is [x] rounded to 2 decimal places: the double nearest to
    [k / 100] for the integer [k] nearest to [100 * x]. *)
Definition rounded_to_2_places (x c : Q) : Prop :=
  exists k, nearest_hundredth x k /\ nearest_double (k # 100) c.

(** The hundredths from 0 to 1, and what is checked of each of them by
    evaluation: rounding its double again gives the same hundredth, the
    double lies between 0 and 1, and within [2^-53] of the decimal. *)
Definition hundredths : list Z := map Z.of_nat (seq 0 101).

Definition hundredth_checks (k : Z) : bool :=
  let y := to_double (k # 100) in
  (round_half_even (Qnum y * 100) (Zpos (Qden y)) =? k)
  && Qle_bool 0 y && Qle_bool y 1
  && Qle_bool (Qabs (y - (k # 100))) (1 # 9007199254740992).

(** ** Data contracts ([src/models.py]) *)

Record SearchResult := {
  product_id : string;
  sr_product_name : string;
  score : Q
}.

Record MatchedProduct := {
  product_name : string;
  confidence : Q;
  context : string
}.

Record ProcessingResult := {
  matched_products : list MatchedProduct;
  competitor_advantage_mentioned : bool;
  bad_placement_mentioned : bool;
  raw_text : string
}.

(** The coercions pydantic applies to a field of type [str], [float] and
    [bool]; [None] is a validation failure.  Which foreign values are
    coerced is the library's business; a value that already has the
    field's type is accepted unchanged. *)
Class Pydantic := {
  as_str : json -> option string;
  as_float : json -> option Q;
  as_bool : json -> option bool;
  as_str_str : forall s, as_str (JStr s) = Some s;
  as_float_num : forall x, as_float (JNum x) = Some x;
  as_bool_bool : forall b, as_bool (JBool b) = Some b
}.

(** The coercion that accepts the field's own type only. *)
Definition exact_str (v : json) : option string :=
  match v with JStr s => Some s | _ => None end.
Definition exact_float (v : json) : option Q :=
  match v with JNum x => Some x | _ => None end.
Definition exact_bool (v : json) : option bool :=
  match v with JBool b => Some b | _ => None end.

Definition exact_types : Pydantic :=
  {| as_str := exact_str; as_float := exact_float; as_bool := exact_bool;
     as_str_str := fun s => eq_refl;
     as_float_num := fun x => eq_refl;
     as_bool_bool := fun b => eq_refl |}.

Section Models.
Context {P : Pydantic}.

(** [MatchedProduct.round_confidence] *)
Definition round_confidence (v : Q) : Q := round2 v.

(** [MatchedProduct(product_name=.., confidence=.., context=..)]: the
    three fields are required; [confidence] has [ge=0.0, le=1.0] and is
    then rounded by the validator. *)
Definition MatchedProduct_new (name conf ctx : json) : result MatchedProduct :=
  match as_str name, as_float conf, as_str ctx with
  | Some n, Some c, Some x =>
      if Qle_bool 0 c && Qle_bool c 1
      then Ok {| product_name := n;
                 confidence := round_confidence c;
                 context := x |}
      else Raise ValidationError
  | _, _, _ => Raise ValidationError
  end.

(** [MatchedProduct] applied to the unpacked dict [p]: [p] must be a mapping; a missing field is a
    validation error and extra keys are ignored. *)
Definition MatchedProduct_kwargs (p : json) : result MatchedProduct :=
  match p with
  | JObj kw =>
      match lookup "product_name" kw, lookup "confidence" kw,
            lookup "context" kw with
      | Some n, Some c, Some x => MatchedProduct_new n c x
      | _, _, _ => Raise ValidationError
      end
  | _ => Raise TypeError
  end.

(** [ProcessingResult(matched_products=.., competitor_advantage_mentioned=..,
    bad_placement_mentioned=.., raw_text=..)] with the validator
    [text_not_empty] on [raw_text]. *)
Definition ProcessingResult_new (mps : list MatchedProduct)
           (competitor placement : json) (text : string)
  : result ProcessingResult :=
  match as_bool competitor, as_bool placement with
  | Some c, Some b =>
      if is_blank text then Raise ValidationError
      else Ok {| matched_products := mps;
                 competitor_advantage_mentioned := c;
                 bad_placement_mentioned := b;
                 raw_text := text |}
  | _, _ => Raise ValidationError
  end.
End Models.

(** ** Configuration ([config.py]) *)

Record config := {
  VECTOR_SEARCH_TOP_K : nat;
  CONFIDENCE_THRESHOLD : Q
}.

(** The values used when the environment sets neither variable:
    [int("3")] and [float("0.7")]. *)
Definition default_config : config :=
  {| VECTOR_SEARCH_TOP_K := 3; CONFIDENCE_THRESHOLD := to_double (7 # 10) |}.

(** ** The conversation and the collaborators *)

Record tool_call := {
  tc_id : string;
  function_name : string;
  function_arguments : string
}.

(** [response.choices[i].message] *)
Record message := {
  tool_calls : option (list tool_call);
  content : option string
}.

Record response := { choices : list message }.

(** One entry of [all_matched_products]: the dict built by
    [_search_products_function] after [result["context"] = query]. *)
Record candidate := {
  c_product_name : string;
  c_confidence : Q;
  c_context : json
}.

(** One entry of [messages]. The tool message holds the serialised
    [search_results]; its dicts are the very objects that were given their
    [context] key just before, so the serialisation shows that key. *)
Inductive chat_message : Type :=
| SystemMessage (text : string)
| UserMessage (text : string)
| AssistantToolCall (tc : tool_call)
| ToolMessage (tool_call_id name : string) (results : list candidate).

Definition embedding := list Q.

Inductive reply (A : Type) : Type :=
| Replied (a : A)
| Failed (msg : string).
Arguments Replied {A} a.
Arguments Failed {A} msg.

(** A call to a remote service together with what it answered.  [EvSearch]
    also remembers the query whose resolution issued the call. *)
Inductive event : Type :=
| EvChat (messages : list chat_message) (r : reply response)
| EvEmbed (text : string) (r : reply embedding)
| EvSearch (query : json) (vector : embedding) (top_k : nat)
           (r : reply (list SearchResult)).

Definition trace := list event.

Definition of_reply {A} (who : collaborator) (r : reply A) : result A :=
  match r with
  | Replied a => Ok a
  | Failed msg => Raise (CollaboratorError who msg)
  end.

(** The services and libraries [ProductMatcher] talks to.  Each remote
    service answers as a function of the calls made so far and of its
    arguments. *)
Record services := {
  chat_completion : trace -> list chat_message -> reply response;
  embeddings_create : trace -> string -> reply embedding;
  vector_search : trace -> embedding -> nat -> reply (list SearchResult);
  json_loads : string -> option json;
  SYSTEM_PROMPT : string
}.

(** ** [EmbeddingGenerator.generate_embedding] ([src/embeddings.py]) *)

Section Matcher.
Context {P : Pydantic}.
Variable cfg : config.
Variable srv : services.

(** The guard [if not text or not text.strip()] raises before the service
    is called; an argument that is true but is not a string has no
    [strip]. The service receives the stripped text. *)
Definition generate_embedding (tr : trace) (text : json)
  : result embedding * trace :=
  if negb (truthy text) then (Raise (ValueError "Text cannot be empty"), tr)
  else
    match text with
    | JStr s =>
        if String.eqb (strip s) ""
        then (Raise (ValueError "Text cannot be empty"), tr)
        else
          let r := embeddings_create srv tr (strip s) in
          (of_reply Embedding r, tr ++ [EvEmbed (strip s) r])
    | _ => (Raise AttributeError, tr)
    end.

(** ** [ProductMatcher._search_products_function] *)

(** The loop over [search_results] that fills [results]. *)
Fixpoint above_threshold (search_results : list SearchResult)
  : list (string * Q) :=
  match search_results with
  | [] => []
  | r :: rest =>
      if Qle_bool (CONFIDENCE_THRESHOLD cfg) (score r)
      then (sr_product_name r, round2 (score r)) :: above_threshold rest
      else above_threshold rest
  end.

(** The body of the [try]; [except Exception] turns every failure into
    the empty list. *)
Definition _search_products_function (tr : trace) (query : json)
  : list (string * Q) * trace :=
  match generate_embedding tr query with
  | (Raise _, tr1) => ([], tr1)
  | (Ok query_embedding, tr1) =>
      let r := vector_search srv tr1 query_embedding
                             (VECTOR_SEARCH_TOP_K cfg) in
      let tr2 := tr1 ++ [EvSearch query query_embedding
                                  (VECTOR_SEARCH_TOP_K cfg) r] in
      match r with
      | Failed _ => ([], tr2)
      | Replied search_results => (above_threshold search_results, tr2)
      end
  end.

(** ** [ProductMatcher.process_transcript] *)

(** The two local variables the loop mutates. *)
Record loop_state := {
  messages : list chat_message;
  all_matched_products : list candidate
}.

(** [result["context"] = query] *)
Definition with_context (query : json) (r : string * Q) : candidate :=
  {| c_product_name := fst r; c_confidence := snd r; c_context := query |}.

(** The body of [for tool_call in message.tool_calls]. *)
Definition handle_tool_call (tc : tool_call) (st : loop_state) (tr : trace)
  : result loop_state * trace :=
  match json_loads srv (function_arguments tc) with
  | None => (Raise JSONDecodeError, tr)
  | Some function_args =>
      if String.eqb (function_name tc) "search_products" then
        match dict_get function_args "query" (JStr "") with
        | Raise e => (Raise e, tr)
        | Ok query =>
            let (search_results, tr') := _search_products_function tr query in
            let tagged := map (with_context query) search_results in
            (Ok {| messages :=
                     messages st
                     ++ [AssistantToolCall tc;
                         ToolMessage (tc_id tc) (function_name tc) tagged];
                   all_matched_products := all_matched_products st ++ tagged |},
             tr')
        end
      else (Ok st, tr)
  end.

Fixpoint handle_tool_calls (tcs : list tool_call) (st : loop_state) (tr : trace)
  : result loop_state * trace :=
  match tcs with
  | [] => (Ok st, tr)
  | tc :: rest =>
      match handle_tool_call tc st tr with
      | (Ok st', tr') => handle_tool_calls rest st' tr'
      | (Raise e, tr') => (Raise e, tr')
      end
  end.

(** The comprehension over [all_matched_products] that appears in the
    three places a result is built from the function calls. *)
Definition from_function_calls (acc : list candidate)
  : result (list MatchedProduct) :=
  comprehension
    (fun p => MatchedProduct_new (JStr (c_product_name p))
                                 (JNum (c_confidence p)) (c_context p))
    acc.

(** [for p in result_data.get("matched_products", [])], each [p] unpacked
    into [MatchedProduct]: a list is walked; an empty string or dict
    yields nothing; a non-empty string or dict yields strings, which do
    not unpack; anything else is not iterable. *)
Definition from_json_products (v : json) : result (list MatchedProduct) :=
  match v with
  | JArr items => comprehension MatchedProduct_kwargs items
  | JStr s => if String.eqb s "" then Ok [] else Raise TypeError
  | JObj fields => match fields with [] => Ok [] | _ => Raise TypeError end
  | _ => Raise TypeError
  end.

(** The part of the [try] after [result_data] is decoded. *)
Definition build_result (text : string) (acc : list candidate)
           (result_data : json) : result ProcessingResult :=
  mps <- match acc with
         | _ :: _ => from_function_calls acc
         | [] =>
             match result_data with
             | JObj fields =>
                 match lookup "matched_products" fields with
                 | Some v => from_json_products v
                 | None => Ok []
                 end
             | JArr _ | JStr _ => Ok []
             | _ => Raise TypeError
             end
         end ;;
  competitor <- dict_get result_data "competitor_advantage_mentioned"
                         (JBool false) ;;
  placement <- dict_get result_data "bad_placement_mentioned" (JBool false) ;;
  ProcessingResult_new mps competitor placement text.

(** The result built from the function calls only: the handler of
    [json.JSONDecodeError] and the code after the loop. *)
Definition function_calls_only (text : string) (acc : list candidate)
  : result ProcessingResult :=
  mps <- from_function_calls acc ;;
  ProcessingResult_new mps (JBool false) (JBool false) text.

(** The text handed to [json.loads]: the part from the first opening
    brace to the last closing brace when there is one, the whole content
    otherwise. *)
Definition json_text (final_content : string) : string :=
  let json_start := find final_content "{" in
  let json_end := rfind final_content "}" + 1 in
  if (0 <=? json_start) && (json_start <? json_end)
  then slice final_content json_start json_end
  else final_content.

(** The [else] branch of [if message.tool_calls]. *)
Definition final_answer (text : string) (acc : list candidate)
           (msg_content : option string) : result ProcessingResult :=
  match msg_content with
  | None => Raise AttributeError
  | Some final_content =>
      match json_loads srv (json_text final_content) with
      | Some result_data => build_result text acc result_data
      | None => function_calls_only text acc
      end
  end.

(** What one pass of the [while] body does: go round again with the
    updated locals, or leave [process_transcript] by [return] or by an
    exception. *)
Inductive control : Type :=
| Next (st : loop_state)
| Done (r : result ProcessingResult).

(** One pass of the body of [while iteration < max_iterations].  The
    declared tool schema and the temperature are the same in every call
    and are not shown. *)
Definition iteration (text : string) (st : loop_state) (tr : trace)
  : control * trace :=
  let r := chat_completion srv tr (messages st) in
  let tr1 := tr ++ [EvChat (messages st) r] in
  match r with
  | Failed msg => (Done (Raise (CollaboratorError LanguageModel msg)), tr1)
  | Replied resp =>
      match choices resp with
      | [] => (Done (Raise IndexError), tr1)
      | message :: _ =>
          match tool_calls message with
          | Some (tc :: tcs) =>
              match handle_tool_calls (tc :: tcs) st tr1 with
              | (Ok st', tr2) => (Next st', tr2)
              | (Raise e, tr2) => (Done (Raise e), tr2)
              end
          | _ =>
              (Done (final_answer text (all_matched_products st)
                                  (content message)), tr1)
          end
      end
  end.

Definition max_iterations : nat := 10.

(** The [while] loop with [remaining = max_iterations - iteration], and
    the code after it. *)
Fixpoint while_loop (remaining : nat) (text : string) (st : loop_state)
         (tr : trace) : result ProcessingResult * trace :=
  match remaining with
  | O => (function_calls_only text (all_matched_products st), tr)
  | S remaining' =>
      match iteration text st tr with
      | (Next st', tr') => while_loop remaining' text st' tr'
      | (Done r, tr') => (r, tr')
      end
  end.

Definition newline : string := String (ascii_of_nat 10) EmptyString.

Definition initial_state (text : string) : loop_state :=
  {| messages :=
       [SystemMessage (SYSTEM_PROMPT srv);
        UserMessage (String.append "Analyzuj tento transkript:"
                       (String.append newline (String.append newline text)))];
     all_matched_products := [] |}.

(** [process_transcript(text)]: the outcome and the calls made to the
    remote services, in order.  The outer [except Exception] logs and
    raises again. *)
Definition process_transcript (text : string)
  : result ProcessingResult * trace :=
  if is_blank text
  then (Raise (ValueError "Transcript text cannot be empty"), [])
  else while_loop max_iterations text (initial_state text) [].

End Matcher.

(** ** A decoder for a subset of JSON

    Used to run the model on concrete conversations: objects, arrays,
    strings without escapes, decimal numbers without exponent, [true],
    [false] and [null].  A number with a fraction is a [float], the double
    nearest to the decimal; a number without one is an [int] and is kept
    as it is.  On a text of this subset it yields what
    [json.loads] yields; outside of it, it fails. *)

Module Decoder.

Definition is_json_space (c : ascii) : bool :=
  let n := nat_of_ascii c in
  ((n =? 32) || (n =? 9) || (n =? 10) || (n =? 13))%nat.

Fixpoint skip_space (s : string) : string :=
  match s with
  | String c s' => if is_json_space c then skip_space s' else s
  | EmptyString => EmptyString
  end.

Definition digit_of (c : ascii) : option Z :=
  let n := nat_of_ascii c in
  if ((48 <=? n) && (n <=? 57))%nat then Some (Z.of_nat n - 48) else None.

(** Reads digits: the value read so far, the number of digits read and
    the rest. *)
Fixpoint digits (s : string) (value : Z) (count : nat) : Z * nat * string :=
  match s with
  | String c s' =>
      match digit_of c with
      | Some d => digits s' (10 * value + d) (S count)
      | None => (value, count, s)
      end
  | EmptyString => (value, count, s)
  end.

Definition number (s : string) : option (Q * string) :=
  let (negative, s1) :=
    match s with
    | String "-" s' => (true, s')
    | _ => (false, s)
    end in
  let '(whole, n, s2) := digits s1 0 O in
  match n with
  | O => None
  | _ =>
      let sign := if negative then (-1) else 1 in
      match s2 with
      | String "." s3 =>
          let '(all, k, s4) := digits s3 whole O in
          match k with
          | O => None
          | _ => Some (to_double
                         (Qmake (sign * all) (Pos.pow 10 (Pos.of_nat k))), s4)
          end
      | _ => Some (Qmake (sign * whole) 1, s2)
      end
  end.

(** The characters up to the closing quote. *)
Fixpoint quoted (s : string) : option (string * string) :=
  match s with
  | EmptyString => None
  | String c s' =>
      if (nat_of_ascii c =? 34)%nat then Some (EmptyString, s')
      else if (nat_of_ascii c =? 92)%nat then None
      else match quoted s' with
           | Some (body, rest) => Some (String c body, rest)
           | None => None
           end
  end.

Definition keyword (word : string) (v : json) (s : string)
  : option (json * string) :=
  if prefix word s
  then Some (v, substring (String.length word)
                          (String.length s - String.length word) s)
  else None.

Inductive goal : Type :=
| Value
| Items (seen : list json)
| Fields (seen : list (string * json)).

(** A later occurrence of a key replaces the earlier value. *)
Fixpoint set_field (k : string) (v : json) (fields : list (string * json))
  : list (string * json) :=
  match fields with
  | [] => [(k, v)]
  | (k', v') :: rest =>
      if String.eqb k' k then (k, v) :: rest
      else (k', v') :: set_field k v rest
  end.

Fixpoint parse (fuel : nat) (g : goal) (s : string) : option (json * string) :=
  match fuel with
  | O => None
  | S fuel' =>
      match g with
      | Value =>
          match skip_space s with
          | String c s' =>
              let n := nat_of_ascii c in
              if (n =? 123)%nat then
                match skip_space s' with
                | String "}" s'' => Some (JObj [], s'')
                | _ => parse fuel' (Fields []) s'
                end
              else if (n =? 91)%nat then
                match skip_space s' with
                | String "]" s'' => Some (JArr [], s'')
                | _ => parse fuel' (Items []) s'
                end
              else if (n =? 34)%nat then
                match quoted s' with
                | Some (body, rest) => Some (JStr body, rest)
                | None => None
                end
              else if (n =? 116)%nat then keyword "true" (JBool true) (String c s')
              else if (n =? 102)%nat then keyword "false" (JBool false) (String c s')
              else if (n =? 110)%nat then keyword "null" JNull (String c s')
              else match number (String c s') with
                   | Some (x, rest) => Some (JNum x, rest)
                   | None => None
                   end
          | EmptyString => None
          end
      | Items seen =>
          match parse fuel' Value s with
          | Some (v, rest) =>
              match skip_space rest with
              | String "," rest' => parse fuel' (Items (seen ++ [v])) rest'
              | String "]" rest' => Some (JArr (seen ++ [v]), rest')
              | _ => None
              end
          | None => None
          end
      | Fields seen =>
          match skip_space s with
          | String c s' =>
              if (nat_of_ascii c =? 34)%nat then
                match quoted s' with
                | Some (k, rest) =>
                    match skip_space rest with
                    | String ":" rest' =>
                        match parse fuel' Value rest' with
                        | Some (v, rest'') =>
                            match skip_space rest'' with
                            | String "," r =>
                                parse fuel' (Fields (set_field k v seen)) r
                            | String "}" r =>
                                Some (JObj (set_field k v seen), r)
                            | _ => None
                            end
                        | None => None
                        end
                    | _ => None
                    end
                | None => None
                end
              else None
          | EmptyString => None
          end
      end
  end.

Definition loads (s : string) : option json :=
  match parse (2 * String.length s + 2) Value s with
  | Some (v, rest) =>
      match skip_space rest with
      | EmptyString => Some v
      | _ => None
      end
  | None => None
  end.

(** Writes a JSON text with apostrophes where the double quotes go. *)
Fixpoint py (s : string) : string :=
  match s with
  | EmptyString => EmptyString
  | String c s' =>
      String (if (nat_of_ascii c =? 39)%nat then ascii_of_nat 34 else c) (py s')
  end.

End Decoder.

(** ** What a trace shows *)

Definition is_chat (ev : event) : bool :=
  match ev with EvChat _ _ => true | _ => false end.

(** The number of round trips to the language model. *)
Definition chat_calls (tr : trace) : nat := List.length (filter is_chat tr).

(** What one search result adds to the accumulator when it is returned for
    [query]. *)
Definition retained (cfg : config) (query : json) (r : SearchResult)
  : list candidate :=
  if Qle_bool (CONFIDENCE_THRESHOLD cfg) (score r)
  then [ {| c_product_name := sr_product_name r;
            c_confidence := round2 (score r);
            c_context := query |} ]
  else [].

(** The candidates one call to the vector search adds to the accumulator. *)
Definition contribution (cfg : config) (ev : event) : list candidate :=
  match ev with
  | EvSearch query _ _ (Replied search_results) =>
      flat_map (retained cfg query) search_results
  | _ => []
  end.

(** All candidates that came out of the vector searches of a run, in the
    order the searches were made. *)
Definition accumulated (cfg : config) (tr : trace) : list candidate :=
  flat_map (contribution cfg) tr.

(** The answer to the latest chat completion request. *)
Fixpoint last_chat (tr : trace) : option (reply response) :=
  match tr with
  | [] => None
  | ev :: tr' =>
      match last_chat tr' with
      | Some r => Some r
      | None => match ev with EvChat _ r => Some r | _ => None end
      end
  end.

(** [if message.tool_calls] *)
Definition requests_tools (m : message) : bool :=
  match tool_calls m with
  | Some (_ :: _) => true
  | _ => false
  end.

(** The terminal message of a run: the latest answer of the model, when it
    came without tool calls. *)
Definition terminal_message (tr : trace) : option message :=
  match last_chat tr with
  | Some (Replied resp) =>
      match choices resp with
      | m :: _ => if requests_tools m then None else Some m
      | [] => None
      end
  | _ => None
  end.

(** A matched product seen as an accumulator entry. *)
Definition as_candidate (mp : MatchedProduct) : candidate :=
  {| c_product_name := product_name mp;
     c_confidence := confidence mp;
     c_context := JStr (context mp) |}.

(** Every accumulated confidence passes the range check of
    [MatchedProduct]. *)
Definition confidences_in_range (acc : list candidate) : Prop :=
  Forall (fun c => 0 <= c_confidence c /\ c_confidence c <= 1)%Q acc.

Fixpoint all_space (s : string) : bool :=
  match s with
  | EmptyString => true
  | String c s' => is_space c && all_space s'
  end.

(** [n] passes of the loop body, none of which leaves the function. *)
Fixpoint rounds {P : Pydantic} (cfg : config) (srv : services) (n : nat)
         (text : string) (st : loop_state) (tr : trace)
  : option (loop_state * trace) :=
  match n with
  | O => Some (st, tr)
  | S n' =>
      match iteration cfg srv text st tr with
      | (Next st', tr') => rounds cfg srv n' text st' tr'
      | (Done _, _) => None
      end
  end.

(** Events that are not chat completion requests. *)
Definition quiet (evs : trace) : Prop :=
  Forall (fun ev => is_chat ev = false) evs.

(** The query behind a vector search is a string. *)
Definition string_query (ev : event) : Prop :=
  match ev with
  | EvSearch query _ _ _ => exists s, query = JStr s
  | _ => True
  end.

(** The exceptions that leave the loop before a result is built: a failure
    of the language model, a response without choices, tool arguments that
    are not JSON or not a dict. *)
Definition aborted (e : exn) : Prop :=
  e = JSONDecodeError \/ e = AttributeError \/ e = IndexError
  \/ exists msg, e = CollaboratorError LanguageModel msg.

(** The exceptions [process_transcript] can let through. *)
Definition may_surface (e : exn) : Prop :=
  match e with
  | CollaboratorError LanguageModel _ => True
  | CollaboratorError _ _ => False
  | ValueError msg => msg = "Transcript text cannot be empty"
  | _ => True
  end.

(** An accumulator entry as the searches produce them: the context is the
    query string and the confidence is a rounded score. *)
Definition from_search (c : candidate) : Prop :=
  (exists s, c_context c = JStr s) /\ exists x, c_confidence c = round2 x.

(** ** Concrete conversations *)

Module Scenario.
Import Decoder.

(** A model that answers its [n]-th request with the [n]-th message of
    [script], and with [afterwards] once the script is used up. *)
Definition scripted (script : list message) (afterwards : message)
  : trace -> list chat_message -> reply response :=
  fun tr _ => Replied {| choices := [nth (chat_calls tr) script afterwards] |}.

Definition shop (script : list message) (afterwards : message)
           (vector : reply embedding) (hits : reply (list SearchResult))
  : services :=
  {| chat_completion := scripted script afterwards;
     embeddings_create := fun _ _ => vector;
     vector_search := fun _ _ _ => hits;
     json_loads := loads;
     SYSTEM_PROMPT := "Jsi asistent pro identifikaci produktu." |}.

Definition call (name arguments : string) : message :=
  {| tool_calls := Some [ {| tc_id := "call_123";
                             function_name := name;
                             function_arguments := py arguments |} ];
     content := None |}.

Definition says (text : string) : message :=
  {| tool_calls := None; content := Some (py text) |}.

Definition search_castrol : message :=
  call "search_products" "{'query': 'Castrol Magnatec 5W-30 A5'}".

Definition final_json : message :=
  says "Hotovo: {'matched_products': [], 'competitor_advantage_mentioned': true, 'bad_placement_mentioned': false}".

Definition hit (name : string) (s : Q) : SearchResult :=
  {| product_id := name; sr_product_name := name; score := s |}.

Definition some_vector : reply embedding := Replied [1 # 2; 1 # 4].

Definition transcript : string := "Na polici je Castrol Magnatec.".

(** One search, two hits (one below the threshold), then the final JSON. *)
Definition one_search : services :=
  shop [search_castrol] final_json some_vector
       (Replied [hit "CASTROL MAGNATEC 5W-30 A5 5 lt" (to_double (8567 # 10000));
                 hit "CASTROL EDGE 0W-20 1 lt" (to_double (50 # 100))]).



(** A model that asks for a search in every round. *)
Definition never_done : services :=
  shop [] search_castrol some_vector
       (Replied [hit "CASTROL MAGNATEC 5W-30 A5 5 lt" (to_double (92 # 100))]).

Definition never_done_high_score : services :=
  shop [] search_castrol some_vector
       (Replied [hit "CASTROL MAGNATEC 5W-30 A5 5 lt" (to_double (15 # 10))]).


(** The embedding service is down. *)
Definition embedding_down : services :=
  shop [search_castrol] final_json (Failed "connection refused")
       (Replied [hit "CASTROL MAGNATEC 5W-30 A5 5 lt" (to_double (92 # 100))]).

(** The model calls a tool that was never declared. *)
Definition unknown_tool : services :=
  shop [call "lookup_price" "{'sku': 'A5'}"] final_json some_vector
       (Replied [hit "CASTROL MAGNATEC 5W-30 A5 5 lt" (to_double (92 # 100))]).

(** The same, with arguments cut off in the middle. *)
Definition unknown_tool_cut_off : services :=
  shop [call "lookup_price" "{'sku': "] final_json some_vector
       (Replied [hit "CASTROL MAGNATEC 5W-30 A5 5 lt" (to_double (92 # 100))]).

(** No search; the final JSON lists a product with confidence 0.835. *)
Definition listed_by_model : services :=
  shop [] (says "{'matched_products': [{'product_name': 'CASTROL EDGE 0W-20 1 lt', 'confidence': 0.835, 'context': 'Castrol Edge'}], 'competitor_advantage_mentioned': true, 'bad_placement_mentioned': false}")
       some_vector (Replied []).

Definition run (srv : services) : result ProcessingResult * trace :=
  process_transcript (P := exact_types) default_config srv transcript.

(** What [one_search] returns. *)
Definition castrol_086 : MatchedProduct :=
  {| product_name := "CASTROL MAGNATEC 5W-30 A5 5 lt";
     confidence := 7746191359077253 # 9007199254740992;
     context := "Castrol Magnatec 5W-30 A5" |}.

(** What [listed_by_model] returns: the double 0.835 is below the decimal
    0.835, so that its rounding is 0.83, the double
    7475975381435023 / 2^53. *)
Definition castrol_edge_083 : MatchedProduct :=
  {| product_name := "CASTROL EDGE 0W-20 1 lt";
     confidence := 7475975381435023 # 9007199254740992;
     context := "Castrol Edge" |}.

Definition one_search_result : ProcessingResult :=
  {| matched_products := [castrol_086];
     competitor_advantage_mentioned := true;
     bad_placement_mentioned := false;
     raw_text := transcript |}.

End Scenario.

(** ** The calls behind one query *)

(** What [_search_products_function] returns for [query] and the calls it
    makes, after the calls of [tr]: none when the guard of
    [generate_embedding] refuses the query; the request to the embedding
    service alone when that fails; otherwise this request and the vector
    search for the vector it returned. *)
Inductive resolution (cfg : config) (srv : services) (tr : trace)
          (query : json) : list (string * Q) -> trace -> Prop :=
| Refused : resolution cfg srv tr query [] []
| NoVector (s msg : string) :
    query = JStr s ->
    strip s <> EmptyString ->
    embeddings_create srv tr (strip s) = Failed msg ->
    resolution cfg srv tr query [] [EvEmbed (strip s) (Failed msg)]
| Searched (s : string) (v : embedding) (r : reply (list SearchResult)) :
    query = JStr s ->
    strip s <> EmptyString ->
    embeddings_create srv tr (strip s) = Replied v ->
    vector_search srv (tr ++ [EvEmbed (strip s) (Replied v)]) v
                  (VECTOR_SEARCH_TOP_K cfg) = r ->
    resolution cfg srv tr query
      (match r with
       | Replied search_results => above_threshold cfg search_results
       | Failed _ => []
       end)
      [EvEmbed (strip s) (Replied v);
       EvSearch (JStr s) v (VECTOR_SEARCH_TOP_K cfg) r].

(** The two messages appended for a resolved tool call. *)
Definition exchange (x : tool_call * list candidate) : list chat_message :=
  [AssistantToolCall (fst x);
   ToolMessage (tc_id (fst x)) (function_name (fst x)) (snd x)].

(** The locals after a [search_products] call was handled. *)
Definition after_search (st : loop_state) (tc : tool_call) (query : json)
           (results : list (string * Q)) : loop_state :=
  {| messages :=
       messages st
       ++ exchange (tc, map (with_context query) results);
     all_matched_products :=
       all_matched_products st ++ map (with_context query) results |}.

(** [b] is [a] with more at its end. *)
Definition extends {A} (a b : list A) : Prop := exists more, b = a ++ more.

(** Each list is extended by all the later ones. *)
Fixpoint growing {A} (l : list (list A)) : Prop :=
  match l with
  | [] => True
  | a :: l' => Forall (extends a) l' /\ growing l'
  end.

(** The conversations sent to the language model, in order. *)
Definition conversations (tr : trace) : list (list chat_message) :=
  flat_map (fun ev => match ev with EvChat m _ => [m] | _ => [] end) tr.

(** The run ended on a request the language model failed to answer. *)
Definition ends_on_failure (tr : trace) (msg : string) : Prop :=
  exists before m, tr = before ++ [EvChat m (Failed msg)].

(** [c in s] for a character. *)
Fixpoint occurs (c : ascii) (s : string) : bool :=
  match s with
  | EmptyString => false
  | String a s' => Ascii.eqb a c || occurs c s'
  end.

(** A confidence between 0 and 1 with two decimals. *)
Definition valid_confidence (mp : MatchedProduct) : Prop :=
  (0 <= confidence mp)%Q /\ (confidence mp <= 1)%Q
  /\ round2 (confidence mp) = confidence mp.

(** ** The products listed by the final JSON *)

Section Listed.
Context {P : Pydantic}.

(** The product [mp] is what [MatchedProduct] makes of the entry [p] of
    the [matched_products] list: [p] is a dict whose [product_name] and
    [context] are the name and the context of [mp], and whose
    [confidence] is a number between 0 and 1 of which the confidence of
    [mp] is the rounding to two decimal places. *)
Definition built_from_entry (p : json) (mp : MatchedProduct) : Prop :=
  exists kw n c x conf,
    p = JObj kw
    /\ lookup "product_name" kw = Some n
    /\ as_str n = Some (product_name mp)
    /\ lookup "confidence" kw = Some c
    /\ as_float c = Some conf
    /\ (0 <= conf)%Q /\ (conf <= 1)%Q
    /\ rounded_to_2_places conf (confidence mp)
    /\ lookup "context" kw = Some x
    /\ as_str x = Some (context mp).

(** An entry from which a product can be built: a dict with the three
    fields, of the right types, and a confidence between 0 and 1. *)
Definition valid_entry (p : json) : Prop :=
  exists kw n c x name conf ctx,
    p = JObj kw
    /\ lookup "product_name" kw = Some n
    /\ as_str n = Some name
    /\ lookup "confidence" kw = Some c
    /\ as_float c = Some conf
    /\ (0 <= conf)%Q /\ (conf <= 1)%Q
    /\ lookup "context" kw = Some x
    /\ as_str x = Some ctx.

(** The products [mps] are those listed by the value [v] of
    [matched_products]: one for each entry of a list, in order, and none
    for an empty string or an empty dict. *)
Definition products_listed (v : json) (mps : list MatchedProduct) : Prop :=
  (exists items, v = JArr items /\ Forall2 built_from_entry items mps)
  \/ ((v = JStr "" \/ v = JObj []) /\ mps = []).

(** A value of [matched_products] from which products can be built. *)
Definition valid_listing (v : json) : Prop :=
  (exists items, v = JArr items /\ Forall valid_entry items)
  \/ v = JStr "" \/ v = JObj [].
End Listed.

(** ** More concrete conversations *)

Module Outage.

(** The language model does not answer. *)
Definition model_down : services :=
  {| chat_completion := fun _ _ => Failed "timeout";
     embeddings_create := fun _ _ => Scenario.some_vector;
     vector_search := fun _ _ _ => Replied [];
     json_loads := Decoder.loads;
     SYSTEM_PROMPT := "Jsi asistent pro identifikaci produktu." |}.

End Outage.

(** ** [Product] ([src/models.py]) *)

Record Product := {
  p_id : string;
  p_name : string;
  p_embedding : option embedding
}.

(** [Product.name_not_empty] *)
Definition name_not_empty (v : string) : result string :=
  if is_blank v then Raise (ValueError "Product name cannot be empty")
  else Ok (strip v).

Section ProductModel.
Context {P : Pydantic}.

(** A field of type [Optional[List[float]]]. *)
Definition embedding_field (v : json) : result (option embedding) :=
  match v with
  | JNull => Ok None
  | JArr items =>
      xs <- comprehension
              (fun x => match as_float x with
                        | Some q => Ok q
                        | None => Raise ValidationError
                        end) items ;;
      Ok (Some xs)
  | _ => Raise ValidationError
  end.

(** [Product] applied to the unpacked dict [item]: [id] and [name] are
    required, [embedding] defaults to [None]; an exception of the
    validator of [name] is reported as a validation error. *)
Definition Product_kwargs (item : json) : result Product :=
  match item with
  | JObj kw =>
      match lookup "id" kw, lookup "name" kw with
      | Some i, Some n =>
          match as_str i, as_str n with
          | Some i', Some n' =>
              match name_not_empty n' with
              | Ok n'' =>
                  e <- match lookup "embedding" kw with
                       | Some v => embedding_field v
                       | None => Ok None
                       end ;;
                  Ok {| p_id := i'; p_name := n''; p_embedding := e |}
              | Raise _ => Raise ValidationError
              end
          | _, _ => Raise ValidationError
          end
      | _, _ => Raise ValidationError
      end
  | _ => Raise TypeError
  end.
End ProductModel.

(** ** [EmbeddingGenerator.generate_embeddings_batch] ([src/embeddings.py]) *)

(** [range(0, n, step)] for a positive [step]. *)
Definition py_range (n step : nat) : list nat :=
  map (fun j => (j * step)%nat) (seq 0 ((n + step - 1) / step)).

(** [[text.strip() for text in batch if text and text.strip()]] *)
Definition cleaned (batch : list string) : list string :=
  map strip (filter (fun t => negb (is_blank t)) batch).

(** The embedding service for several texts at once: it answers as a
    function of the inputs it was sent before and of its input. *)
Definition batch_service : Type :=
  list (list string) -> list string -> reply (list embedding).

(** The passes of the loop over the batches: the embeddings collected and
    the inputs sent so far are carried along. *)
Fixpoint embed_batches (create : batch_service) (batches : list (list string))
         (embeddings : list embedding) (sent : list (list string))
  : result (list embedding) * list (list string) :=
  match batches with
  | [] => (Ok embeddings, sent)
  | batch :: rest =>
      match cleaned batch with
      | [] => embed_batches create rest embeddings sent
      | cleaned_batch =>
          match create sent cleaned_batch with
          | Failed msg =>
              (Raise (CollaboratorError Embedding msg), sent ++ [cleaned_batch])
          | Replied batch_embeddings =>
              embed_batches create rest (embeddings ++ batch_embeddings)
                            (sent ++ [cleaned_batch])
          end
      end
  end.

(** [generate_embeddings_batch(texts, batch_size)] for a positive
    [batch_size] (16 when none is given): the outcome and the inputs sent
    to the service, in order. *)
Definition generate_embeddings_batch (create : batch_service)
           (texts : list string) (batch_size : positive)
  : result (list embedding) * list (list string) :=
  match texts with
  | [] => (Raise (ValueError "Texts list cannot be empty"), [])
  | _ =>
      embed_batches create
        (map (fun i => firstn (Pos.to_nat batch_size) (skipn i texts))
             (py_range (List.length texts) (Pos.to_nat batch_size)))
        [] []
  end.

(** The service answers with one embedding per text. *)
Definition one_per_text (create : batch_service) : Prop :=
  forall sent input answer,
    create sent input = Replied answer ->
    List.length answer = List.length input.

(** ** [generate_embeddings] ([scripts/setup_azure_search.py]) *)

(** [for product, embedding in zip(products, embeddings):
    product.embedding = embedding] *)
Fixpoint assign_embeddings (products : list Product)
         (embeddings : list embedding) : list Product :=
  match products, embeddings with
  | p :: ps, e :: es =>
      {| p_id := p_id p; p_name := p_name p; p_embedding := Some e |}
      :: assign_embeddings ps es
  | _, _ => products
  end.

Definition generate_embeddings (create : batch_service)
           (products : list Product)
  : result (list Product) * list (list string) :=
  match generate_embeddings_batch create (map p_name products) 16 with
  | (Ok embeddings, sent) => (Ok (assign_embeddings products embeddings), sent)
  | (Raise e, sent) => (Raise e, sent)
  end.

(** ** [validate_config] ([config.py]) *)

Record azure_settings := {
  AZURE_OPENAI_ENDPOINT : string;
  AZURE_OPENAI_API_KEY : string;
  AZURE_SEARCH_ENDPOINT : string;
  AZURE_SEARCH_API_KEY : string
}.

Definition required_configs (c : azure_settings) : list (string * string) :=
  [("AZURE_OPENAI_ENDPOINT", AZURE_OPENAI_ENDPOINT c);
   ("AZURE_OPENAI_API_KEY", AZURE_OPENAI_API_KEY c);
   ("AZURE_SEARCH_ENDPOINT", AZURE_SEARCH_ENDPOINT c);
   ("AZURE_SEARCH_API_KEY", AZURE_SEARCH_API_KEY c)].

(** [value.startswith("YOUR_") or not value] *)
Definition is_unset (value : string) : bool :=
  prefix "YOUR_" value || String.eqb value "".

(** The loop over [required_configs.items()]: the key of the first value
    that is not set. *)
Fixpoint first_unset (items : list (string * string)) : option string :=
  match items with
  | [] => None
  | (key, value) :: rest =>
      if is_unset value then Some key else first_unset rest
  end.

Definition validate_config (c : azure_settings) : bool * option string :=
  match first_unset (required_configs c) with
  | Some key =>
      (false,
       Some (String.append "Configuration error: "
               (String.append key
                  " is not set. Please check your .env file.")))
  | None => (true, None)
  end.

(** * Properties *)

(** ** Blank input *)

Lemma lstrip_all_space (s : string) :
  all_space s = true -> lstrip s = EmptyString.
Proof.
  induction s as [|c s IH]; simpl; [reflexivity|].
  intros H. apply andb_true_iff in H as [Hc Hs].
  rewrite Hc. exact (IH Hs).
Qed.

Lemma rstrip_empty_all_space (s : string) :
  rstrip s = EmptyString -> all_space s = true.
Proof.
  induction s as [|c s IH]; simpl; [reflexivity|].
  destruct (rstrip s) eqn:E; [|discriminate].
  destruct (is_space c); [|discriminate].
  intros _. simpl. exact (IH eq_refl).
Qed.

Lemma lstrip_all_space_inv (s : string) :
  all_space (lstrip s) = true -> all_space s = true.
Proof.
  induction s as [|c s IH]; simpl; [reflexivity|].
  destruct (is_space c) eqn:Hc; simpl.
  - exact IH.
  - rewrite Hc. simpl. discriminate.
Qed.

(** The guard of [process_transcript] fires exactly on the texts made of
    whitespace only, the empty text among them. *)
Lemma is_blank_iff (text : string) :
  is_blank text = true <-> all_space text = true.
Proof.
  unfold is_blank, strip. split.
  - intros H. apply orb_true_iff in H as [H|H].
    + apply String.eqb_eq in H. subst. reflexivity.
    + apply String.eqb_eq in H.
      apply lstrip_all_space_inv, rstrip_empty_all_space, H.
  - intros H. rewrite (lstrip_all_space _ H). simpl.
    apply orb_true_r.
Qed.

(** C6. A transcript that is empty or made of whitespace only is refused
    with [ValueError] at the first statement of [process_transcript]: the
    trace of calls to the language model, the embedding service and the
    vector search is empty, and no conversation was built. *)
Theorem blank_transcript_is_refused
        (P : Pydantic) (cfg : config) (srv : services) (text : string) :
  all_space text = true ->
  process_transcript cfg srv text
  = (Raise (ValueError "Transcript text cannot be empty"), []).
Proof.
  intros H. unfold process_transcript.
  apply is_blank_iff in H. rewrite H. reflexivity.
Qed.

Lemma blank_transcript_is_refused_witness :
  all_space (String (ascii_of_nat 9) "   ") = true
  /\ process_transcript (P := exact_types) default_config Scenario.one_search
                        (String (ascii_of_nat 9) "   ")
     = (Raise (ValueError "Transcript text cannot be empty"), []).
Proof.
  split.
  - reflexivity.
  - apply (blank_transcript_is_refused exact_types default_config
             Scenario.one_search (String (ascii_of_nat 9) "   ")).
    reflexivity.
Defined.

(** ** Traces *)

Lemma chat_calls_app (a b : trace) :
  chat_calls (a ++ b) = (chat_calls a + chat_calls b)%nat.
Proof.
  unfold chat_calls. rewrite filter_app, length_app. reflexivity.
Qed.

Lemma chat_calls_quiet (evs : trace) : quiet evs -> chat_calls evs = O.
Proof.
  unfold chat_calls. induction 1 as [|ev evs Hev _ IH]; simpl; [reflexivity|].
  rewrite Hev. exact IH.
Qed.

Lemma last_chat_app (a b : trace) :
  last_chat (a ++ b)
  = match last_chat b with Some r => Some r | None => last_chat a end.
Proof.
  induction a as [|ev a IH]; simpl.
  - destruct (last_chat b); reflexivity.
  - rewrite IH. destruct (last_chat b); reflexivity.
Qed.

Lemma last_chat_quiet (evs : trace) : quiet evs -> last_chat evs = None.
Proof.
  induction 1 as [|ev evs Hev _ IH]; simpl; [reflexivity|].
  rewrite IH. destruct ev; simpl in Hev; try discriminate; reflexivity.
Qed.

Lemma accumulated_app (cfg : config) (a b : trace) :
  accumulated cfg (a ++ b) = accumulated cfg a ++ accumulated cfg b.
Proof. unfold accumulated. apply flat_map_app. Qed.

Lemma quiet_app (a b : trace) : quiet a -> quiet b -> quiet (a ++ b).
Proof. unfold quiet. intros. apply Forall_app. split; assumption. Qed.

(** The loop over the search results is a filter followed by a map. *)
Lemma above_threshold_filter (cfg : config) (rs : list SearchResult) :
  above_threshold cfg rs
  = map (fun r => (sr_product_name r, round2 (score r)))
        (filter (fun r => Qle_bool (CONFIDENCE_THRESHOLD cfg) (score r)) rs).
Proof.
  induction rs as [|r rs IH]; simpl; [reflexivity|].
  destruct (Qle_bool _ _); simpl; rewrite IH; reflexivity.
Qed.

(** Each search result is kept or dropped on its own. *)
Lemma tagged_results_retained (cfg : config) (query : json)
      (rs : list SearchResult) :
  map (with_context query) (above_threshold cfg rs)
  = flat_map (retained cfg query) rs.
Proof.
  induction rs as [|r rs IH]; simpl; [reflexivity|].
  unfold retained at 1.
  destruct (Qle_bool _ _); simpl; rewrite IH; reflexivity.
Qed.

Section Runs.
Context {P : Pydantic}.
Variable cfg : config.
Variable srv : services.

(** [generate_embedding] either raises without calling the service, or
    calls it on the stripped text of a string that is not blank. *)
Lemma generate_embedding_cases (tr : trace) (text : json) :
  (exists e, generate_embedding srv tr text = (Raise e, tr)
             /\ (e = ValueError "Text cannot be empty" \/ e = AttributeError))
  \/ (exists s, text = JStr s
                /\ strip s <> EmptyString
                /\ generate_embedding srv tr text
                   = (of_reply Embedding (embeddings_create srv tr (strip s)),
                      tr ++ [EvEmbed (strip s)
                                     (embeddings_create srv tr (strip s))])).
Proof.
  unfold generate_embedding.
  destruct (truthy text) eqn:Ht; simpl.
  - destruct text; try (left; eexists; split; [reflexivity|auto]).
    destruct (String.eqb (strip s) "") eqn:Hs.
    + left; eexists; split; [reflexivity|auto].
    + right. exists s. apply String.eqb_neq in Hs. auto.
  - left; eexists; split; [reflexivity|auto].
Qed.

(** What [_search_products_function] leaves in the trace, and what it
    returns in terms of it. *)
Lemma search_products_spec (tr : trace) (query : json) :
  exists evs,
    snd (_search_products_function cfg srv tr query) = tr ++ evs
    /\ quiet evs
    /\ Forall string_query evs
    /\ map (with_context query)
           (fst (_search_products_function cfg srv tr query))
       = accumulated cfg evs.
Proof.
  unfold _search_products_function.
  destruct (generate_embedding_cases tr query)
    as [(e & -> & _)|(s & -> & Hs & ->)].
  - exists []. rewrite app_nil_r. repeat split; constructor.
  - destruct (embeddings_create srv tr (strip s)) as [v|msg] eqn:Ev; simpl.
    + exists [EvEmbed (strip s) (Replied v);
              EvSearch (JStr s) v (VECTOR_SEARCH_TOP_K cfg)
                       (vector_search srv (tr ++ [EvEmbed (strip s) (Replied v)])
                                      v (VECTOR_SEARCH_TOP_K cfg))].
      split.
      { destruct (vector_search srv _ v _); simpl;
          rewrite <- app_assoc; reflexivity. }
      split. { repeat constructor. }
      split. { repeat constructor. simpl. eauto. }
      destruct (vector_search srv _ v _); simpl.
      * rewrite app_nil_r. apply tagged_results_retained.
      * reflexivity.
    + exists [EvEmbed (strip s) (Failed msg)].
      repeat split; repeat constructor.
Qed.
Ltac no_new_events :=
  exists (@nil event); simpl; rewrite ?app_nil_r;
  repeat split; try apply Forall_nil; auto.

Lemma handle_tool_call_spec (tc : tool_call) (st : loop_state) (tr : trace) :
  exists evs,
    snd (handle_tool_call cfg srv tc st tr) = tr ++ evs
    /\ quiet evs
    /\ Forall string_query evs
    /\ match fst (handle_tool_call cfg srv tc st tr) with
       | Ok st' =>
           all_matched_products st'
           = all_matched_products st ++ accumulated cfg evs
       | Raise e => e = JSONDecodeError \/ e = AttributeError
       end.
Proof.
  unfold handle_tool_call.
  destruct (json_loads srv (function_arguments tc)) as [args|].
  2:{ no_new_events. }
  destruct (String.eqb (function_name tc) "search_products").
  2:{ no_new_events. }
  destruct (dict_get args "query" (JStr "")) as [query|e] eqn:Hq.
  2:{ destruct args; simpl in Hq; inversion Hq; subst; no_new_events. }
  destruct (search_products_spec tr query) as (evs & H1 & H2 & H3 & H4).
  destruct (_search_products_function cfg srv tr query) as [results tr'].
  simpl in *. exists evs. rewrite H4. auto.
Qed.

Lemma handle_tool_calls_spec (tcs : list tool_call) :
  forall (st : loop_state) (tr : trace),
  exists evs,
    snd (handle_tool_calls cfg srv tcs st tr) = tr ++ evs
    /\ quiet evs
    /\ Forall string_query evs
    /\ match fst (handle_tool_calls cfg srv tcs st tr) with
       | Ok st' =>
           all_matched_products st'
           = all_matched_products st ++ accumulated cfg evs
       | Raise e => e = JSONDecodeError \/ e = AttributeError
       end.
Proof.
  induction tcs as [|tc tcs IH]; intros st tr; simpl.
  - no_new_events.
  - destruct (handle_tool_call_spec tc st tr) as (evs1 & H1 & H2 & H3 & H4).
    destruct (handle_tool_call cfg srv tc st tr) as [[st1|e] tr1]; simpl in *.
    + destruct (IH st1 tr1) as (evs2 & K1 & K2 & K3 & K4).
      exists (evs1 ++ evs2). subst tr1. rewrite K1, app_assoc.
      split; [reflexivity|]. split; [apply quiet_app; assumption|].
      split; [apply Forall_app; split; assumption|].
      destruct (fst (handle_tool_calls cfg srv tcs st1 (tr ++ evs1))); [|exact K4].
      rewrite K4, H4, accumulated_app, app_assoc. reflexivity.
    + exists evs1. auto.
Qed.
Lemma terminal_message_after (tr : trace) (msgs : list chat_message)
      (r : reply response) (evs : trace) :
  quiet evs ->
  terminal_message (tr ++ EvChat msgs r :: evs) = terminal_message [EvChat msgs r].
Proof.
  intros H. unfold terminal_message.
  rewrite last_chat_app. simpl. rewrite (last_chat_quiet H). reflexivity.
Qed.

Lemma accumulated_after_chat (tr : trace) (msgs : list chat_message)
      (r : reply response) (evs : trace) :
  accumulated cfg (tr ++ EvChat msgs r :: evs)
  = accumulated cfg tr ++ accumulated cfg evs.
Proof. rewrite accumulated_app. reflexivity. Qed.

(** One pass of the loop body: it asks the model once; it goes round again
    only after a reply that requests tools; it returns a result only from a
    reply without tool calls. *)
Lemma iteration_spec (text : string) (st : loop_state) (tr : trace) :
  let r := chat_completion srv tr (messages st) in
  exists evs,
    snd (iteration cfg srv text st tr) = tr ++ EvChat (messages st) r :: evs
    /\ quiet evs
    /\ Forall string_query evs
    /\ match fst (iteration cfg srv text st tr) with
       | Next st' =>
           all_matched_products st'
           = all_matched_products st ++ accumulated cfg evs
           /\ terminal_message [EvChat (messages st) r] = None
       | Done out =>
           match terminal_message [EvChat (messages st) r] with
           | Some m =>
               evs = []
               /\ out = final_answer srv text (all_matched_products st)
                                     (content m)
           | None => exists e, out = Raise e /\ aborted e
           end
       end.
Proof.
  intros r. subst r. unfold iteration, terminal_message, requests_tools, aborted.
  simpl last_chat.
  destruct (chat_completion srv tr (messages st)) as [resp|msg].
  2:{ exists []. repeat split; try apply Forall_nil.
      simpl. eexists. split; [reflexivity|]. eauto 7. }
  destruct (choices resp) as [|m rest].
  { exists []. repeat split; try apply Forall_nil.
    simpl. eexists. split; [reflexivity|]. auto. }
  destruct (tool_calls m) as [[|tc tcs]|].
  1,3: exists []; simpl; repeat split; apply Forall_nil.
  destruct (handle_tool_calls_spec (tc :: tcs) st
              (tr ++ [EvChat (messages st) (Replied resp)]))
    as (evs & H1 & H2 & H3 & H4).
  destruct (handle_tool_calls cfg srv (tc :: tcs) st _) as [[st'|e] tr'].
  - exists evs. simpl in *. rewrite H1, <- app_assoc. auto.
  - exists evs. simpl in *. rewrite H1, <- app_assoc.
    repeat split; auto. exists e. intuition.
Qed.

(** The whole loop, read off the trace it leaves: a run that ends on a
    reply without tool calls returns what [final_answer] builds from the
    candidates of all searches; any other run returns what is built after
    the loop, or was aborted. *)
Lemma while_loop_spec (text : string) (n : nat) :
  forall (st : loop_state) (tr : trace),
    all_matched_products st = accumulated cfg tr ->
    terminal_message tr = None ->
    exists evs,
      snd (while_loop cfg srv n text st tr) = tr ++ evs
      /\ Forall string_query evs
      /\ (chat_calls evs <= n)%nat
      /\ match terminal_message (tr ++ evs) with
         | Some m =>
             fst (while_loop cfg srv n text st tr)
             = final_answer srv text (accumulated cfg (tr ++ evs)) (content m)
         | None =>
             fst (while_loop cfg srv n text st tr)
             = function_calls_only text (accumulated cfg (tr ++ evs))
             \/ exists e, fst (while_loop cfg srv n text st tr) = Raise e
                          /\ aborted e
         end.
Proof.
  induction n as [|n IH]; intros st tr Hacc Hterm; simpl.
  - exists []. rewrite app_nil_r, Hterm, Hacc.
    repeat split; try apply Forall_nil; auto.
  - destruct (iteration_spec text st tr) as (evs1 & H1 & H2 & H3 & H4).
    set (r := chat_completion srv tr (messages st)) in *.
    destruct (iteration cfg srv text st tr) as [[st'|out] tr1]; simpl in *.
    + destruct H4 as [H4 H5].
      destruct (IH st' tr1) as (evs2 & K1 & K2 & K3 & K4).
      { subst tr1. rewrite accumulated_after_chat, H4, Hacc. reflexivity. }
      { subst tr1. rewrite terminal_message_after by assumption. exact H5. }
      exists (EvChat (messages st) r :: evs1 ++ evs2).
      assert (E : tr ++ EvChat (messages st) r :: evs1 ++ evs2 = tr1 ++ evs2).
      { subst tr1. rewrite <- app_assoc. reflexivity. }
      rewrite E. split; [exact K1|].
      split. { constructor; [exact I|]. apply Forall_app; auto. }
      split. { change (EvChat (messages st) r :: evs1 ++ evs2)
                 with ([EvChat (messages st) r] ++ evs1 ++ evs2).
               rewrite !chat_calls_app, (chat_calls_quiet H2).
               unfold chat_calls at 1. simpl. lia. }
      exact K4.
    + exists (EvChat (messages st) r :: evs1).
      split; [exact H1|].
      split. { constructor; [exact I|exact H3]. }
      split. { change (EvChat (messages st) r :: evs1)
                 with ([EvChat (messages st) r] ++ evs1).
               rewrite chat_calls_app, (chat_calls_quiet H2).
               unfold chat_calls. simpl. lia. }
      rewrite terminal_message_after by assumption.
      destruct (terminal_message [EvChat (messages st) r]) as [m|].
      * destruct H4 as [-> ->].
        rewrite accumulated_after_chat, app_nil_r, <- Hacc. reflexivity.
      * right. exact H4.
Qed.
(** A run of [process_transcript] on a text that passes the guard. *)
Lemma process_transcript_spec (text : string) :
  is_blank text = false ->
  let out := fst (process_transcript cfg srv text) in
  let tr := snd (process_transcript cfg srv text) in
  Forall string_query tr
  /\ (chat_calls tr <= 10)%nat
  /\ match terminal_message tr with
     | Some m => out = final_answer srv text (accumulated cfg tr) (content m)
     | None =>
         out = function_calls_only text (accumulated cfg tr)
         \/ exists e, out = Raise e /\ aborted e
     end.
Proof.
  intros Hb. unfold process_transcript. rewrite Hb.
  destruct (while_loop_spec text max_iterations (initial_state srv text) [])
    as (evs & H1 & H2 & H3 & H4); try reflexivity.
  simpl app in *. rewrite H1. auto.
Qed.
End Runs.

(** ** Rounding and validation *)

(** The nearest integer is within one half of the quotient. *)
Lemma round_half_even_near (p q : Z) :
  0 < q ->
  2 * (round_half_even p q * q - p) <= q
  /\ 2 * (p - round_half_even p q * q) <= q.
Proof.
  intros Hq. unfold round_half_even.
  pose proof (Z.div_mod p q ltac:(lia)) as E.
  pose proof (Z.mod_pos_bound p q Hq) as B.
  set (f := p / q) in *. set (r := p mod q) in *. clearbody f r.
  destruct (2 * r ?= q) eqn:C.
  - rewrite Z.compare_eq_iff in C. destruct (Z.even f); nia.
  - rewrite Z.compare_lt_iff in C. nia.
  - rewrite Z.compare_gt_iff in C. nia.
Qed.

(** Half way between two integers, the even one is chosen. *)
Lemma round_half_even_tie (p q : Z) :
  0 < q -> 2 * Z.abs (round_half_even p q * q - p) = q ->
  Z.even (round_half_even p q) = true.
Proof.
  intros Hq. unfold round_half_even.
  pose proof (Z.div_mod p q ltac:(lia)) as E.
  pose proof (Z.mod_pos_bound p q Hq) as B.
  set (f := p / q) in *. set (r := p mod q) in *. clearbody f r.
  destruct (2 * r ?= q) eqn:C.
  - intros _. destruct (Z.even f) eqn:Ev; [exact Ev|].
    replace (f + 1) with (Z.succ f) by lia. rewrite Z.even_succ.
    rewrite <- Z.negb_even, Ev. reflexivity.
  - rewrite Z.compare_lt_iff in C. intros H. exfalso. nia.
  - rewrite Z.compare_gt_iff in C. intros H. exfalso. nia.
Qed.

(** The exponent puts the magnitude of [p / b] in the binade of 53-bit
    significands, or is 0 below it. *)
Lemma ulp_exponent_spec (p b : Z) :
  0 < b ->
  0 <= ulp_exponent p b
  /\ (ulp_exponent p b = 0 \/ b * 2 ^ (ulp_exponent p b + 52) <= Z.abs p)
  /\ Z.abs p < b * 2 ^ (ulp_exponent p b + 53).
Proof.
  intros Hb. unfold ulp_exponent.
  set (a := Z.abs p). assert (Ha : 0 <= a) by (unfold a; lia). clearbody a.
  set (d := Z.log2 a - Z.log2 b).
  destruct (Z.lt_ge_cases a b) as [Lt|Ge].
  - assert (Hd : d <= 0).
    { unfold d. pose proof (Z.log2_le_mono a b ltac:(lia)). lia. }
    assert (Hl : (if b * 2 ^ d <=? a then d else d - 1) <= 0)
      by (destruct (b * 2 ^ d <=? a); lia).
    rewrite Z.max_r by lia. split; [lia|]. split; [left; reflexivity|].
    simpl. pose proof (Z.pow_pos_nonneg 2 53 ltac:(lia) ltac:(lia)).
    assert (1 <= 2 ^ 53) by lia. nia.
  - assert (Hd : 0 <= d).
    { unfold d. pose proof (Z.log2_le_mono b a Ge). lia. }
    destruct (Z.log2_spec a ltac:(lia)) as [A1 A2].
    destruct (Z.log2_spec b Hb) as [B1 B2].
    pose proof (Z.log2_nonneg b) as Lb.
    assert (EA : 2 ^ Z.log2 a = 2 ^ Z.log2 b * 2 ^ d).
    { rewrite <- Z.pow_add_r by lia. f_equal. unfold d. lia. }
    assert (ES : forall n, 0 <= n -> 2 ^ (n + 1) = 2 * 2 ^ n).
    { intros n Hn. rewrite Z.pow_add_r by lia. lia. }
    rewrite Z.pow_succ_r in A2 by (apply Z.log2_nonneg).
    rewrite Z.pow_succ_r in B2 by lia.
    assert (Pd : 0 < 2 ^ d) by (apply Z.pow_pos_nonneg; lia).
    set (l := if b * 2 ^ d <=? a then d else d - 1).
    assert (Hl : 0 <= l /\ b * 2 ^ l <= a /\ a < b * 2 ^ (l + 1)).
    { unfold l. destruct (Z.leb_spec (b * 2 ^ d) a) as [C|C].
      - split; [lia|]. split; [lia|]. rewrite ES by lia. nia.
      - assert (1 <= d).
        { destruct (Z.eq_dec d 0) as [E0|]; [|lia].
          rewrite E0 in C. simpl in C. lia. }
        assert (Ed : 2 ^ d = 2 * 2 ^ (d - 1)).
        { rewrite <- Z.pow_succ_r by lia. f_equal. lia. }
        replace (d - 1 + 1) with d by lia.
        split; [lia|]. split; [|exact C].
        assert (Px : 0 < 2 ^ (d - 1)) by (apply Z.pow_pos_nonneg; lia).
        rewrite Ed in EA.
        set (X := 2 ^ (d - 1)) in *. set (Y := 2 ^ Z.log2 b) in *.
        set (W := 2 ^ Z.log2 a) in *. clearbody X Y W.
        assert (b * X < 2 * Y * X) by (apply Z.mul_lt_mono_pos_r; lia).
        lia. }
    clearbody l. destruct Hl as (L0 & L1 & L2).
    destruct (Z.le_gt_cases l 52) as [Small|Big].
    + rewrite Z.max_r by lia. split; [lia|]. split; [left; reflexivity|].
      simpl (0 + 53).
      assert (2 ^ (l + 1) <= 2 ^ 53) by (apply Z.pow_le_mono_r; lia).
      nia.
    + rewrite Z.max_l by lia. split; [lia|].
      replace (l - 52 + 52) with l by lia.
      replace (l - 52 + 53) with (l + 1) by lia.
      split; [right; exact L1|exact L2].
Qed.

(** [to_double], in steps of [2^-1074]. *)
Lemma to_double_core (q : Q) :
  let p := Qnum q * Zpos grid in
  let b := Zpos (Qden q) in
  exists m e : Z,
    to_double q = Qred ((m * 2 ^ e) # grid)
    /\ 0 <= e /\ Z.abs m <= 2 ^ 53
    /\ (e = 0 \/ b * 2 ^ (e + 52) <= Z.abs p)
    /\ Z.abs p < b * 2 ^ (e + 53)
    /\ 2 * Z.abs (m * 2 ^ e * b - p) <= b * 2 ^ e
    /\ (2 * Z.abs (m * 2 ^ e * b - p) = b * 2 ^ e -> Z.even m = true).
Proof.
  intros p b. unfold to_double. fold p. fold b.
  destruct (@ulp_exponent_spec p b ltac:(unfold b; lia)) as (E0 & E1 & E2).
  set (e := ulp_exponent p b) in *. clearbody e.
  assert (Hb : 0 < b) by (unfold b; lia).
  assert (Pe : 0 < 2 ^ e) by (apply Z.pow_pos_nonneg; lia).
  assert (Hq : 0 < b * 2 ^ e) by nia.
  destruct (@round_half_even_near p (b * 2 ^ e) Hq) as [N1 N2].
  pose proof (@round_half_even_tie p (b * 2 ^ e) Hq) as T.
  set (m := round_half_even p (b * 2 ^ e)) in *. clearbody m.
  exists m, e. split; [reflexivity|]. split; [exact E0|].
  assert (E53 : 2 ^ (e + 53) = 2 ^ e * 2 ^ 53) by (apply Z.pow_add_r; lia).
  replace (m * 2 ^ e * b) with (m * (b * 2 ^ e)) by ring.
  split.
  { assert (E2' : Z.abs p < b * 2 ^ e * 2 ^ 53) by (rewrite E53 in E2; lia).
    assert (K : 0 < 2 ^ 53) by (apply Z.pow_pos_nonneg; lia).
    set (k := 2 ^ 53) in *. clearbody k.
    set (u := b * 2 ^ e) in *. clearbody u.
    clear T E1 E2 E53. nia. }
  split; [exact E1|]. split; [exact E2|]. split; [lia|].
  intros H. apply T. lia.
Qed.

Lemma grid_large : 2 ^ 53 < Zpos grid.
Proof. vm_compute. reflexivity. Qed.

(** [to_double] returns the nearest double. *)
Lemma to_double_nearest (q : Q) : nearest_double q (to_double q).
Proof.
  destruct (to_double_core q) as (m & e & E & E0 & Em & E1 & E2 & N & T).
  exists m, e. rewrite E. clear E.
  assert (Pe : 0 < 2 ^ e) by (apply Z.pow_pos_nonneg; lia).
  assert (P52 : 0 < 2 ^ (e + 52)) by (apply Z.pow_pos_nonneg; lia).
  assert (P53 : 0 < 2 ^ (e + 53)) by (apply Z.pow_pos_nonneg; lia).
  destruct q as [a b]. cbn [Qnum Qden] in *.
  revert E1 E2 N T. generalize grid. intros g E1 E2 N T.
  rewrite Z.abs_mul in E1, E2.
  replace (Z.abs (Zpos g)) with (Zpos g) in E1, E2 by lia.
  set (M := m * 2 ^ e) in *.
  set (u := 2 ^ e) in *. set (v := 2 ^ (e + 52)) in *.
  set (w := 2 ^ (e + 53)) in *. clearbody M u v w.
  split; [exact E0|]. split; [exact Em|].
  split; [apply Qred_correct|].
  split.
  { destruct E1 as [E1|E1]; [left; exact E1|right].
    unfold Qle, Qabs. simpl. lia. }
  split.
  { unfold Qlt, Qabs. simpl. lia. }
  assert (D : (2 * Qabs (Qred (M # g) - (a # b)) == (2 * Z.abs (M * Zpos b - a * Zpos g)) # (g * b))%Q).
  { rewrite Qred_correct. unfold Qeq, Qabs, Qminus, Qplus, Qopp, Qmult.
    cbn [Qnum Qden].
    replace (M * Zpos b + - a * Zpos g) with (M * Zpos b - a * Zpos g) by ring.
    reflexivity. }
  split.
  { rewrite D. unfold Qle. cbn [Qnum Qden].
    rewrite Pos2Z.inj_mul.
    set (X := Z.abs (M * Zpos b - a * Zpos g)) in *. clearbody X.
    apply Z.mul_le_mono_nonneg_r with (p := Zpos g) in N; lia. }
  intros H. apply T. rewrite D in H. unfold Qeq in H.
  cbn [Qnum Qden] in H. rewrite Pos2Z.inj_mul in H.
  set (X := Z.abs (M * Zpos b - a * Zpos g)) in *. clearbody X.
  apply Z.mul_cancel_r with (p := Zpos g); lia.
Qed.

(** A hundredth whose double lies between 0 and 1 is one of 0.00, 0.01,
    .., 1.00. *)
Lemma to_double_range (k : Z) :
  (0 <= to_double (k # 100))%Q -> (to_double (k # 100) <= 1)%Q ->
  0 <= k <= 100.
Proof.
  destruct (to_double_core (k # 100)) as (m & e & E & E0 & Em & E1 & E2 & N & T).
  rewrite E. clear E T. rewrite !Qred_correct.
  cbn [Qnum Qden] in *.
  pose proof grid_large as G. revert G E1 E2 N. generalize grid.
  intros g G E1 E2 N. unfold Qle. cbn [Qnum Qden].
  assert (Pe : 0 < 2 ^ e) by (apply Z.pow_pos_nonneg; lia).
  assert (E52 : 2 ^ (e + 52) = 2 ^ e * 4503599627370496)
    by (rewrite Z.pow_add_r by lia; reflexivity).
  rewrite E52 in E1. clear E52 E2 Em.
  change (2 ^ 53) with 9007199254740992 in G.
  assert (U0 : e = 0 -> 2 ^ e = 1) by (intros ->; reflexivity).
  set (M := m * 2 ^ e) in *. set (u := 2 ^ e) in *.
  set (t := k * Zpos g) in *. clearbody M u.
  intros H0 H1.
  assert (Ht : (k <= -1 -> t <= - Zpos g) /\ (101 <= k -> 101 * Zpos g <= t))
    by (unfold t; split; nia).
  destruct Ht as [Hn Hp].
  destruct (Z.le_gt_cases k (-1)) as [Neg|];
    [specialize (Hn Neg); clear Hp|].
  - exfalso. clearbody t. destruct E1 as [E1|E1]; [specialize (U0 E1)|]; lia.
  - destruct (Z.le_gt_cases 101 k) as [Big|]; [|lia].
    specialize (Hp Big). clear Hn. exfalso. clearbody t.
    destruct E1 as [E1|E1]; [specialize (U0 E1)|]; lia.
Qed.

Lemma in_hundredths (k : Z) : 0 <= k <= 100 -> In k hundredths.
Proof.
  intros H. unfold hundredths. apply in_map_iff. exists (Z.to_nat k).
  split; [lia|]. apply in_seq. lia.
Qed.

Lemma hundredths_checked : forallb hundredth_checks hundredths = true.
Proof. vm_compute. reflexivity. Qed.

Lemma hundredth_spec (k : Z) :
  0 <= k <= 100 ->
  round2 (to_double (k # 100)) = to_double (k # 100)
  /\ (0 <= to_double (k # 100))%Q /\ (to_double (k # 100) <= 1)%Q
  /\ (Qabs (to_double (k # 100) - (k # 100)) <= 1 # 9007199254740992)%Q.
Proof.
  intros H. pose proof hundredths_checked as C.
  rewrite forallb_forall in C. specialize (C k (in_hundredths H)).
  unfold hundredth_checks in C.
  repeat (apply andb_true_iff in C; destruct C as [C ?]).
  apply Z.eqb_eq in C.
  split; [unfold round2; rewrite C; reflexivity|].
  repeat split; apply Qle_bool_iff; assumption.
Qed.

Lemma round_half_even_range (p q : Z) :
  0 < q -> 0 <= p -> p <= 100 * q ->
  0 <= round_half_even p q <= 100.
Proof.
  intros Hq Hp Hle. unfold round_half_even.
  pose proof (Z.div_mod p q ltac:(lia)) as E.
  pose proof (Z.mod_pos_bound p q Hq) as B.
  set (f := p / q) in *. set (r := p mod q) in *. clearbody f r.
  assert (0 <= f) by nia.
  destruct (2 * r ?= q) eqn:C.
  - rewrite Z.compare_eq_iff in C. destruct (Z.even f); nia.
  - rewrite Z.compare_lt_iff in C. nia.
  - rewrite Z.compare_gt_iff in C. nia.
Qed.

(** The nearest integer is within one half of the quotient. *)
Lemma round_half_even_nearest (x : Q) :
  nearest_hundredth x (round_half_even (Qnum x * 100) (Zpos (Qden x))).
Proof.
  destruct x as [a b]. cbn [Qnum Qden].
  destruct (@round_half_even_near (a * 100) (Zpos b) ltac:(lia)) as [N1 N2].
  pose proof (@round_half_even_tie (a * 100) (Zpos b) ltac:(lia)) as T.
  set (k := round_half_even (a * 100) (Zpos b)) in *. clearbody k.
  assert (D : (2 * Qabs (100 * (a # b) - inject_Z k)
               == (2 * Z.abs (k * Zpos b - a * 100)) # b)%Q).
  { unfold Qeq, Qabs, Qminus, Qplus, Qopp, Qmult, inject_Z.
    cbn [Qnum Qden].
    replace (100 * a * 1 + - k * Zpos (1 * b)) with (- (k * Zpos b - a * 100))
      by (rewrite Pos.mul_1_l; ring).
    rewrite Z.abs_opp, !Pos.mul_1_l, Pos.mul_1_r. reflexivity. }
  split.
  - rewrite D. unfold Qle. cbn [Qnum Qden]. lia.
  - intros H. apply T. rewrite D in H. unfold Qeq in H.
    cbn [Qnum Qden] in H. lia.
Qed.

(** [round2] rounds to two decimal places. *)
Lemma round2_spec (x : Q) : rounded_to_2_places x (round2 x).
Proof.
  exists (round_half_even (Qnum x * 100) (Zpos (Qden x))).
  split; [apply round_half_even_nearest|apply to_double_nearest].
Qed.

(** Rounding keeps a confidence between 0 and 1. *)
Lemma round2_in_range (x : Q) :
  (0 <= x)%Q -> (x <= 1)%Q -> (0 <= round2 x)%Q /\ (round2 x <= 1)%Q.
Proof.
  destruct x as [a b]. unfold Qle, round2. cbn [Qnum Qden]. intros H0 H1.
  assert (R : 0 <= round_half_even (a * 100) (Zpos b) <= 100)
    by (apply round_half_even_range; lia).
  destruct (@hundredth_spec _ R) as (_ & L & U & _). split; assumption.
Qed.

(** Rounding a rounded value that passes the range check changes
    nothing. *)
Lemma round2_fixed (x : Q) :
  (0 <= round2 x)%Q -> (round2 x <= 1)%Q -> round2 (round2 x) = round2 x.
Proof.
  unfold round2 at 1 2 4. intros H0 H1.
  exact (proj1 (@hundredth_spec _ (@to_double_range _ H0 H1))).
Qed.


Lemma in_range_iff (c : Q) :
  Qle_bool 0 c && Qle_bool c 1 = true <-> (0 <= c /\ c <= 1)%Q.
Proof.
  rewrite andb_true_iff, !Qle_bool_iff. reflexivity.
Qed.

(** The range check of an accumulator, by evaluation. *)
Lemma confidences_in_range_checked (acc : list candidate) :
  forallb (fun c => Qle_bool 0 (c_confidence c) && Qle_bool (c_confidence c) 1)
          acc = true ->
  confidences_in_range acc.
Proof.
  unfold confidences_in_range. rewrite forallb_forall, Forall_forall.
  intros H c Hc. apply in_range_iff. exact (H c Hc).
Qed.

Lemma comprehension_raise {A B} (f : A -> result B) (l : list A) (e : exn) :
  comprehension f l = Raise e -> exists a, In a l /\ f a = Raise e.
Proof.
  induction l as [|a l IH]; simpl; [discriminate|].
  destruct (f a) as [b|e'] eqn:Ea; simpl.
  - destruct (comprehension f l) as [bs|e''] eqn:El; simpl; [discriminate|].
    intros H. inversion H; subst.
    destruct (IH eq_refl) as (a' & Hin & Ha'). eauto.
  - intros H. inversion H; subst. eauto.
Qed.

Lemma comprehension_ok {A B} (f : A -> result B) (l : list A) (bs : list B) :
  comprehension f l = Ok bs -> Forall2 (fun a b => f a = Ok b) l bs.
Proof.
  revert bs. induction l as [|a l IH]; simpl; intros bs H.
  - inversion H. constructor.
  - destruct (f a) as [b|e] eqn:Ea; simpl in H; [|discriminate].
    destruct (comprehension f l) as [bs'|e] eqn:El; simpl in H; [|discriminate].
    inversion H; subst. constructor; auto.
Qed.

Lemma comprehension_first_raise {A B} (f : A -> result B)
      (before after : list A) (a : A) (bs : list B) (e : exn) :
  comprehension f before = Ok bs ->
  f a = Raise e ->
  comprehension f (before ++ a :: after) = Raise e.
Proof.
  revert bs. induction before as [|x before IH]; simpl; intros bs Hb Ha.
  - rewrite Ha. reflexivity.
  - destruct (f x) as [b|e'] eqn:Ex; simpl in *; [|discriminate].
    destruct (comprehension f before) as [bs'|e'] eqn:Eb; simpl in *;
      [|discriminate].
    rewrite (IH bs' eq_refl Ha). reflexivity.
Qed.

Section Validation.
Context {P : Pydantic}.

Lemma MatchedProduct_new_raise (name conf ctx : json) (e : exn) :
  MatchedProduct_new name conf ctx = Raise e -> e = ValidationError.
Proof.
  unfold MatchedProduct_new.
  destruct (as_str name), (as_float conf), (as_str ctx);
    try (intros H; inversion H; reflexivity).
  destruct (Qle_bool 0 q && Qle_bool q 1); intros H; inversion H; reflexivity.
Qed.

(** An accumulator entry passes [MatchedProduct] exactly when its
    confidence is in range, and then comes out unchanged. *)
Lemma MatchedProduct_of_candidate (c : candidate) :
  from_search c ->
  MatchedProduct_new (JStr (c_product_name c)) (JNum (c_confidence c))
                     (c_context c)
  = if Qle_bool 0 (c_confidence c) && Qle_bool (c_confidence c) 1
    then match c_context c with
         | JStr s => Ok {| product_name := c_product_name c;
                           confidence := c_confidence c;
                           context := s |}
         | _ => Raise ValidationError
         end
    else Raise ValidationError.
Proof.
  intros [[s Hs] [x Hx]]. unfold MatchedProduct_new, round_confidence.
  rewrite Hs, as_str_str, as_float_num, as_str_str.
  destruct (Qle_bool 0 (c_confidence c) && Qle_bool (c_confidence c) 1) eqn:R;
    [|reflexivity].
  apply in_range_iff in R as [R0 R1]. rewrite Hx in *.
  rewrite round2_fixed by assumption. reflexivity.
Qed.

Lemma from_function_calls_raise (acc : list candidate) (e : exn) :
  from_function_calls acc = Raise e -> e = ValidationError.
Proof.
  intros H. apply comprehension_raise in H as (c & _ & H).
  exact (MatchedProduct_new_raise _ _ _ H).
Qed.

Lemma from_function_calls_in_range (acc : list candidate) :
  Forall from_search acc ->
  confidences_in_range acc ->
  exists mps, from_function_calls acc = Ok mps /\ map as_candidate mps = acc.
Proof.
  unfold confidences_in_range, from_function_calls.
  induction acc as [|c acc IH]; intros Hs Hr; simpl.
  - exists []. split; reflexivity.
  - inversion Hs as [|? ? Hc Hs']; inversion Hr as [|? ? Rc Hr']; subst.
    destruct (IH Hs' Hr') as (mps & E1 & E2).
    rewrite (MatchedProduct_of_candidate Hc).
    apply in_range_iff in Rc. rewrite Rc.
    destruct Hc as [[s Hctx] _]. rewrite Hctx. simpl. rewrite E1. simpl.
    eexists. split; [reflexivity|]. simpl. rewrite E2.
    destruct c; simpl in *; subst; reflexivity.
Qed.

Lemma from_function_calls_ok (acc : list candidate) (mps : list MatchedProduct) :
  Forall from_search acc ->
  from_function_calls acc = Ok mps ->
  confidences_in_range acc /\ map as_candidate mps = acc.
Proof.
  unfold confidences_in_range, from_function_calls.
  revert mps. induction acc as [|c acc IH]; intros mps Hs H; simpl in *.
  - inversion H. split; [constructor|reflexivity].
  - inversion Hs as [|? ? Hc Hs']; subst.
    rewrite (MatchedProduct_of_candidate Hc) in H.
    destruct (Qle_bool 0 (c_confidence c) && Qle_bool (c_confidence c) 1)
      eqn:Rc; [|discriminate].
    destruct Hc as [[s Hctx] _]. rewrite Hctx in H. simpl in H.
    destruct (comprehension _ acc) as [mps'|e] eqn:E; [|discriminate].
    simpl in H. inversion H; subst.
    destruct (IH mps' Hs' eq_refl) as [R M].
    split.
    + constructor; [apply in_range_iff; exact Rc|exact R].
    + simpl. rewrite M. destruct c; simpl in *; subst; reflexivity.
Qed.

Lemma accumulated_from_search (cfg : config) (tr : trace) :
  Forall string_query tr -> Forall from_search (accumulated cfg tr).
Proof.
  unfold accumulated.
  induction 1 as [|ev tr Hev _ IH]; simpl; [constructor|].
  apply Forall_app. split; [|exact IH].
  destruct ev as [| |query v k [rs|msg]]; simpl; try constructor.
  destruct Hev as [s ->].
  induction rs as [|r rs IHrs]; simpl; [constructor|].
  unfold retained at 1.
  destruct (Qle_bool (CONFIDENCE_THRESHOLD cfg) (score r)); simpl;
    [|exact IHrs].
  constructor; [|exact IHrs].
  split; simpl; eauto.
Qed.

Lemma ProcessingResult_new_flags (mps : list MatchedProduct) (c b : bool)
      (text : string) :
  is_blank text = false ->
  ProcessingResult_new mps (JBool c) (JBool b) text
  = Ok {| matched_products := mps;
          competitor_advantage_mentioned := c;
          bad_placement_mentioned := b;
          raw_text := text |}.
Proof.
  intros H. unfold ProcessingResult_new. rewrite !as_bool_bool, H. reflexivity.
Qed.

(** The result built from the function calls only. *)
Lemma function_calls_only_spec (text : string) (acc : list candidate) :
  is_blank text = false ->
  Forall from_search acc ->
  (confidences_in_range acc ->
   exists r, function_calls_only text acc = Ok r
             /\ map as_candidate (matched_products r) = acc
             /\ competitor_advantage_mentioned r = false
             /\ bad_placement_mentioned r = false
             /\ raw_text r = text)
  /\ (~ confidences_in_range acc ->
      function_calls_only text acc = Raise ValidationError).
Proof.
  intros Hb Hs. unfold function_calls_only. split.
  - intros Hr.
    destruct (from_function_calls_in_range Hs Hr) as (mps & -> & M).
    simpl. rewrite ProcessingResult_new_flags by assumption.
    eexists. split; [reflexivity|]. simpl. auto.
  - intros Hn. destruct (from_function_calls acc) as [mps|e] eqn:E.
    + destruct (from_function_calls_ok Hs E) as [R _]. contradiction.
    + apply from_function_calls_raise in E. subst. reflexivity.
Qed.
End Validation.

(** ** The bound on the number of round trips *)

(** C3. [process_transcript] always ends, and it asks the language model at
    most ten times, whatever the model, the embedding service and the
    vector search answer and however many tool calls each answer holds. *)
Theorem at_most_ten_round_trips
        (P : Pydantic) (cfg : config) (srv : services) (text : string) :
  exists out tr,
    process_transcript cfg srv text = (out, tr) /\ (chat_calls tr <= 10)%nat.
Proof.
  destruct (is_blank text) eqn:Hb.
  - unfold process_transcript. rewrite Hb.
    do 2 eexists. split; [reflexivity|]. unfold chat_calls. simpl. lia.
  - destruct (@process_transcript_spec P cfg srv text Hb) as (_ & H & _).
    exists (fst (process_transcript cfg srv text)),
           (snd (process_transcript cfg srv text)).
    split; [apply surjective_pairing|exact H].
Qed.

(** The bound is reached by a model that never stops asking for searches. *)
Lemma ten_round_trips_happen :
  chat_calls (snd (Scenario.run Scenario.never_done)) = 10%nat.
Proof. vm_compute. reflexivity. Qed.

(** ** The confidence threshold *)

Lemma below_threshold_dropped (cfg : config) (query : json) (r : SearchResult) :
  (score r < CONFIDENCE_THRESHOLD cfg)%Q -> retained cfg query r = [].
Proof.
  intros H. unfold retained.
  destruct (Qle_bool (CONFIDENCE_THRESHOLD cfg) (score r)) eqn:E; [|reflexivity].
  apply Qle_bool_iff in E. exfalso. exact (Qlt_not_le _ _ H E).
Qed.

Lemma at_threshold_kept (cfg : config) (query : json) (r : SearchResult) :
  (CONFIDENCE_THRESHOLD cfg <= score r)%Q ->
  retained cfg query r
  = [ {| c_product_name := sr_product_name r;
         c_confidence := round2 (score r);
         c_context := query |} ].
Proof.
  intros H. unfold retained. apply Qle_bool_iff in H. rewrite H. reflexivity.
Qed.

(** C2. When the vector search answers a [search_products] call for
    [query] with the batch [rs], the accumulator grows by exactly what each
    result of the batch contributes on its own, in order: nothing for a
    score strictly below the threshold, and for a score at or above it one
    entry holding the product name, the query as context and, as
    confidence, the score rounded to two decimal places, that is the double
    nearest to [k / 100] for the integer [k] nearest to 100 times the
    score. *)
Theorem threshold_filter
        (cfg : config) (srv : services)
        (tc : tool_call) (st : loop_state) (tr tr1 : trace)
        (args query : json) (v : embedding) (rs : list SearchResult) :
  json_loads srv (function_arguments tc) = Some args ->
  function_name tc = "search_products" ->
  dict_get args "query" (JStr "") = Ok query ->
  generate_embedding srv tr query = (Ok v, tr1) ->
  vector_search srv tr1 v (VECTOR_SEARCH_TOP_K cfg) = Replied rs ->
  (exists st',
      handle_tool_call cfg srv tc st tr
      = (Ok st', tr1 ++ [EvSearch query v (VECTOR_SEARCH_TOP_K cfg) (Replied rs)])
      /\ all_matched_products st'
         = all_matched_products st ++ flat_map (retained cfg query) rs)
  /\ (forall r, (score r < CONFIDENCE_THRESHOLD cfg)%Q ->
                retained cfg query r = [])
  /\ (forall r, (CONFIDENCE_THRESHOLD cfg <= score r)%Q ->
                exists c,
                  retained cfg query r
                  = [ {| c_product_name := sr_product_name r;
                         c_confidence := c;
                         c_context := query |} ]
                  /\ rounded_to_2_places (score r) c).
Proof.
  intros Hargs Hname Hq Hemb Hsearch.
  split; [|split; intros r; [apply below_threshold_dropped|]].
  - unfold handle_tool_call, _search_products_function.
    rewrite Hargs, Hname, Hq, Hemb, Hsearch. simpl.
    eexists. split; [reflexivity|]. simpl.
    rewrite tagged_results_retained. reflexivity.
  - intros H. exists (round2 (score r)).
    split; [apply at_threshold_kept; exact H|apply round2_spec].
Qed.

(** With the default threshold, the double 0.7, a batch with the scores
    0.8567 and 0.50 adds the first product only, with the confidence 0.86,
    the double 7746191359077253 / 2^53. *)
Lemma threshold_filter_witness :
  exists st' tr',
    handle_tool_call default_config Scenario.one_search
      {| tc_id := "call_123"; function_name := "search_products";
         function_arguments :=
           Decoder.py "{'query': 'Castrol Magnatec 5W-30 A5'}" |}
      (initial_state Scenario.one_search Scenario.transcript) []
    = (Ok st', tr')
    /\ all_matched_products st'
       = [ {| c_product_name := "CASTROL MAGNATEC 5W-30 A5 5 lt";
              c_confidence := 7746191359077253 # 9007199254740992;
              c_context := JStr "Castrol Magnatec 5W-30 A5" |} ]
    /\ rounded_to_2_places (to_double (8567 # 10000))
                           (7746191359077253 # 9007199254740992).
Proof.
  destruct (@threshold_filter default_config Scenario.one_search
              {| tc_id := "call_123"; function_name := "search_products";
                 function_arguments :=
                   Decoder.py "{'query': 'Castrol Magnatec 5W-30 A5'}" |}
              (initial_state Scenario.one_search Scenario.transcript) []
              [EvEmbed "Castrol Magnatec 5W-30 A5" (Replied [1 # 2; 1 # 4])]
              (JObj [("query", JStr "Castrol Magnatec 5W-30 A5")])
              (JStr "Castrol Magnatec 5W-30 A5")
              [1 # 2; 1 # 4]
              [Scenario.hit "CASTROL MAGNATEC 5W-30 A5 5 lt"
                            (to_double (8567 # 10000));
               Scenario.hit "CASTROL EDGE 0W-20 1 lt" (to_double (50 # 100))]
              ltac:(vm_compute; reflexivity) eq_refl
              ltac:(vm_compute; reflexivity) ltac:(vm_compute; reflexivity)
              ltac:(vm_compute; reflexivity))
    as ((st' & H1 & H2) & _ & H3).
  destruct (H3 (Scenario.hit "CASTROL MAGNATEC 5W-30 A5 5 lt"
                             (to_double (8567 # 10000))))
    as (c & K1 & K2).
  { vm_compute. discriminate. }
  vm_compute in K1. inversion K1; subst c.
  exists st'. eexists. split; [exact H1|]. split; [|exact K2].
  rewrite H2. vm_compute. reflexivity.
Defined.

(** ** How a run ends *)

Section Endings.
Context {P : Pydantic}.
Variable cfg : config.
Variable srv : services.

Lemma ProcessingResult_new_ok (mps : list MatchedProduct) (c b : json)
      (text : string) (r : ProcessingResult) :
  ProcessingResult_new mps c b text = Ok r ->
  matched_products r = mps
  /\ as_bool c = Some (competitor_advantage_mentioned r)
  /\ as_bool b = Some (bad_placement_mentioned r)
  /\ raw_text r = text.
Proof.
  unfold ProcessingResult_new.
  destruct (as_bool c), (as_bool b); try discriminate.
  destruct (is_blank text); [discriminate|].
  intros H. inversion H. simpl. auto.
Qed.

Lemma function_calls_only_ok (text : string) (acc : list candidate)
      (r : ProcessingResult) :
  function_calls_only text acc = Ok r ->
  from_function_calls acc = Ok (matched_products r).
Proof.
  unfold function_calls_only.
  destruct (from_function_calls acc) as [mps|e]; simpl; [|discriminate].
  intros H. apply ProcessingResult_new_ok in H as [<- _]. reflexivity.
Qed.

(** A result built after JSON was decoded: the decoded value is a dict, the
    products come from the accumulator when it is not empty and from the
    dict otherwise, and both flags come from the dict. *)
Lemma build_result_ok (text : string) (acc : list candidate) (d : json)
      (r : ProcessingResult) :
  build_result text acc d = Ok r ->
  exists fields,
    d = JObj fields
    /\ (acc <> [] -> from_function_calls acc = Ok (matched_products r))
    /\ (acc = [] ->
        match lookup "matched_products" fields with
        | Some v => from_json_products v = Ok (matched_products r)
        | None => matched_products r = []
        end)
    /\ as_bool (match lookup "competitor_advantage_mentioned" fields with
                | Some v => v
                | None => JBool false
                end) = Some (competitor_advantage_mentioned r)
    /\ as_bool (match lookup "bad_placement_mentioned" fields with
                | Some v => v
                | None => JBool false
                end) = Some (bad_placement_mentioned r)
    /\ raw_text r = text.
Proof.
  unfold build_result. intros H.
  destruct d as [| | | | |fields];
    try (destruct acc; [|destruct (from_function_calls (_ :: _))];
         simpl in H; discriminate).
  exists fields. split; [reflexivity|].
  destruct acc as [|c acc].
  - destruct (lookup "matched_products" fields) as [v|].
    + destruct (from_json_products v) as [mps|e]; simpl in H; [|discriminate].
      apply ProcessingResult_new_ok in H as (<- & H2 & H3 & H4).
      repeat split; auto. intros K. congruence.
    + simpl in H. apply ProcessingResult_new_ok in H as (<- & H2 & H3 & H4).
      repeat split; auto. intros K. congruence.
  - destruct (from_function_calls (c :: acc)) as [mps|e]; simpl in H;
      [|discriminate].
    apply ProcessingResult_new_ok in H as (<- & H2 & H3 & H4).
    repeat split; auto. intros K. discriminate.
Qed.


(** A run whose trace ends on a reply without tool calls passed the guard
    and returned what [final_answer] made of that reply. *)
Lemma run_with_terminal_message (text : string)
      (out : result ProcessingResult) (tr : trace) (m : message) :
  process_transcript cfg srv text = (out, tr) ->
  terminal_message tr = Some m ->
  is_blank text = false
  /\ Forall string_query tr
  /\ out = final_answer srv text (accumulated cfg tr) (content m).
Proof.
  intros Hrun Hm.
  destruct (is_blank text) eqn:Hb.
  - unfold process_transcript in Hrun. rewrite Hb in Hrun.
    inversion Hrun; subst. discriminate.
  - destruct (@process_transcript_spec P cfg srv text Hb) as (H1 & _ & H2).
    rewrite Hrun in *. simpl in *. rewrite Hm in H2. auto.
Qed.


End Endings.


(** Ten passes that all go round again lead to the code after the loop. *)
Lemma rounds_spec (P : Pydantic) (cfg : config) (srv : services)
      (text : string) (n : nat) :
  forall (st st' : loop_state) (tr tr' : trace),
    rounds cfg srv n text st tr = Some (st', tr') ->
    all_matched_products st = accumulated cfg tr ->
    Forall string_query tr ->
    terminal_message tr = None ->
    while_loop cfg srv n text st tr
    = (function_calls_only text (accumulated cfg tr'), tr')
    /\ chat_calls tr' = (chat_calls tr + n)%nat
    /\ Forall string_query tr'
    /\ terminal_message tr' = None.
Proof.
  induction n as [|n IH]; intros st st' tr tr' Hr Hacc Hq Hterm; simpl in *.
  - inversion Hr; subst. rewrite Hacc. repeat split; auto.
  - destruct (@iteration_spec P cfg srv text st tr) as (evs & H1 & H2 & H3 & H4).
    destruct (iteration cfg srv text st tr) as [[st1|out] tr1]; [|discriminate].
    simpl in *. destruct H4 as [H4 H5]. subst tr1.
    destruct (IH _ _ _ _ Hr) as (K1 & K2 & K3 & K4).
    + rewrite accumulated_after_chat, H4, Hacc. reflexivity.
    + apply Forall_app. split; [exact Hq|]. constructor; [exact I|exact H3].
    + rewrite terminal_message_after by assumption. exact H5.
    + rewrite K1. repeat split; auto.
      rewrite K2.
      change (EvChat (messages st) (chat_completion srv tr (messages st)) :: evs)
        with ([EvChat (messages st) (chat_completion srv tr (messages st))]
                ++ evs).
      rewrite !chat_calls_app, (chat_calls_quiet H2).
      unfold chat_calls at 2. simpl. lia.
Qed.

(** ** Reconciliation of the final answer *)

Section ListedProducts.
Context {P : Pydantic}.

(** What [MatchedProduct] makes of a dict, field by field. *)
Lemma MatchedProduct_kwargs_built (p : json) (mp : MatchedProduct) :
  MatchedProduct_kwargs p = Ok mp -> built_from_entry p mp.
Proof.
  destruct p as [| | | | |kw]; simpl; try discriminate.
  destruct (lookup "product_name" kw) as [n|] eqn:Ln; [|discriminate].
  destruct (lookup "confidence" kw) as [c|] eqn:Lc; [|discriminate].
  destruct (lookup "context" kw) as [x|] eqn:Lx; [|discriminate].
  unfold MatchedProduct_new, round_confidence.
  destruct (as_str n) as [name|] eqn:An; [|discriminate].
  destruct (as_float c) as [conf|] eqn:Ac; [|destruct (as_str x); discriminate].
  destruct (as_str x) as [ctx|] eqn:Ax; [|discriminate].
  destruct (Qle_bool 0 conf && Qle_bool conf 1) eqn:R; [|discriminate].
  apply in_range_iff in R as [R0 R1].
  intros H. inversion H; subst mp; clear H.
  exists kw, n, c, x, conf. cbn [product_name confidence context].
  do 7 (split; [solve [auto]|]).
  split; [apply round2_spec|auto].
Qed.

Lemma valid_entry_builds (p : json) :
  valid_entry p -> exists mp, MatchedProduct_kwargs p = Ok mp.
Proof.
  intros (kw & n & c & x & name & conf & ctx & -> & Ln & An & Lc & Ac
          & R0 & R1 & Lx & Ax).
  simpl. rewrite Ln, Lc, Lx. unfold MatchedProduct_new.
  rewrite An, Ac, Ax.
  rewrite (proj2 (in_range_iff conf) (conj R0 R1)). eauto.
Qed.

Lemma from_json_products_listed (v : json) (mps : list MatchedProduct) :
  from_json_products v = Ok mps -> products_listed v mps.
Proof.
  unfold products_listed. destruct v as [| | |s|items|fields]; simpl;
    try discriminate.
  - destruct (String.eqb s "") eqn:E; [|discriminate].
    apply String.eqb_eq in E. intros H. inversion H. subst. auto.
  - intros H. left. exists items. split; [reflexivity|].
    apply comprehension_ok in H.
    induction H as [|p mp items mps Hp _ IH]; constructor;
      [apply MatchedProduct_kwargs_built; exact Hp|exact IH].
  - destruct fields; [|discriminate]. intros H. inversion H. auto.
Qed.

Lemma valid_listing_builds (v : json) :
  valid_listing v -> exists mps, from_json_products v = Ok mps.
Proof.
  intros [(items & -> & H)|[->| ->]]; simpl; eauto.
  induction H as [|p items Hp _ (mps & IH)]; simpl; [eauto|].
  destruct (valid_entry_builds Hp) as (mp & ->). simpl. rewrite IH.
  simpl. eauto.
Qed.
End ListedProducts.

(** C1. When the run ends on a model message whose JSON text decodes to
    [d], the outcome is what [build_result] makes of the candidates of all
    searches and of [d].  If a result is returned: with candidates, its
    products are exactly those candidates, in the order of the searches,
    whatever [d] lists; without candidates, its products are those listed
    by the [matched_products] entry of [d], one for each entry of the list
    and in its order, with the name and the context of the entry and its
    confidence, a number between 0 and 1, rounded to two decimal places,
    and there are none when [d] has no such entry; both flags are read
    from [d] and are false when [d] does not have them.  A result is
    returned whenever the confidences of the candidates are in range, the
    entries listed by [d] (if they are used) are valid and the flags are
    booleans. *)
Theorem final_answer_reconciles
        (P : Pydantic) (cfg : config) (srv : services) (text : string)
        (out : result ProcessingResult) (tr : trace) (m : message)
        (c : string) (d : json) :
  process_transcript cfg srv text = (out, tr) ->
  terminal_message tr = Some m ->
  content m = Some c ->
  json_loads srv (json_text c) = Some d ->
  let acc := accumulated cfg tr in
  let flag fields key :=
      match lookup key fields with Some v => v | None => JBool false end in
  out = build_result text acc d
  /\ (forall r, out = Ok r ->
      exists fields,
        d = JObj fields
        /\ (acc <> [] -> map as_candidate (matched_products r) = acc)
        /\ (acc = [] ->
            match lookup "matched_products" fields with
            | Some v => products_listed v (matched_products r)
            | None => matched_products r = []
            end)
        /\ as_bool (flag fields "competitor_advantage_mentioned")
           = Some (competitor_advantage_mentioned r)
        /\ as_bool (flag fields "bad_placement_mentioned")
           = Some (bad_placement_mentioned r)
        /\ (lookup "competitor_advantage_mentioned" fields = None ->
            competitor_advantage_mentioned r = false)
        /\ (lookup "bad_placement_mentioned" fields = None ->
            bad_placement_mentioned r = false))
  /\ (forall fields b1 b2,
         d = JObj fields ->
         confidences_in_range acc ->
         (acc = [] ->
          match lookup "matched_products" fields with
          | Some v => valid_listing v
          | None => True
          end) ->
         as_bool (flag fields "competitor_advantage_mentioned") = Some b1 ->
         as_bool (flag fields "bad_placement_mentioned") = Some b2 ->
         exists r, out = Ok r).
Proof.
  intros Hrun Hm Hc Hd acc flag.
  destruct (run_with_terminal_message _ _ _ Hrun Hm) as (Hb & Hq & Hout).
  pose proof (accumulated_from_search cfg Hq) as Hs. fold acc in Hs.
  assert (E : out = build_result text acc d).
  { rewrite Hout. unfold final_answer. rewrite Hc, Hd. reflexivity. }
  split; [exact E|]. split.
  - intros r Hr. rewrite E in Hr.
    apply build_result_ok in Hr as (fields & -> & H1 & H2 & H3 & H4 & _).
    exists fields. split; [reflexivity|].
    split. { intros Hne. exact (proj2 (from_function_calls_ok Hs (H1 Hne))). }
    split.
    { intros He. specialize (H2 He).
      destruct (lookup "matched_products" fields) as [v|]; [|exact H2].
      apply from_json_products_listed. exact H2. }
    split; [exact H3|]. split; [exact H4|].
    unfold flag in *. split; intros K; rewrite K, as_bool_bool in *; congruence.
  - intros fields b1 b2 -> Hr Hp H1 H2. rewrite E. unfold build_result.
    simpl dict_get. fold (flag fields "competitor_advantage_mentioned").
    fold (flag fields "bad_placement_mentioned").
    assert (K : forall mps, exists r,
                 ProcessingResult_new mps
                   (flag fields "competitor_advantage_mentioned")
                   (flag fields "bad_placement_mentioned") text = Ok r).
    { intros mps. unfold ProcessingResult_new. rewrite H1, H2, Hb. eauto. }
    destruct acc as [|c0 acc0] eqn:Eacc.
    + specialize (Hp eq_refl).
      destruct (lookup "matched_products" fields) as [v|].
      * destruct (valid_listing_builds Hp) as [mps ->]. simpl. apply K.
      * simpl. apply K.
    + destruct (from_function_calls_in_range Hs Hr) as (mps & -> & _).
      simpl. apply K.
Qed.


(** Two runs.  In the first the search found a product and the final JSON
    lists none: the product of the search is returned.  In the second
    there was no search and the final JSON lists one product with the
    confidence 0.835: this product is returned, with its name, its context
    and the confidence 0.83. *)
Lemma final_answer_reconciles_witness :
  (exists r,
      fst (Scenario.run Scenario.one_search) = Ok r
      /\ map as_candidate (matched_products r)
         = accumulated default_config (snd (Scenario.run Scenario.one_search))
      /\ competitor_advantage_mentioned r = true
      /\ bad_placement_mentioned r = false)
  /\ (exists r,
         fst (Scenario.run Scenario.listed_by_model) = Ok r
         /\ accumulated default_config
                        (snd (Scenario.run Scenario.listed_by_model)) = []
         /\ matched_products r = [Scenario.castrol_edge_083]
         /\ products_listed (P := exact_types)
              (JArr [JObj [("product_name", JStr "CASTROL EDGE 0W-20 1 lt");
                           ("confidence",
                            JNum (940126422213591 # 1125899906842624));
                           ("context", JStr "Castrol Edge")]])
              (matched_products r)
         /\ competitor_advantage_mentioned r = true
         /\ bad_placement_mentioned r = false).
Proof.
  split.
  - destruct (@final_answer_reconciles exact_types default_config
                Scenario.one_search Scenario.transcript
                (fst (Scenario.run Scenario.one_search))
                (snd (Scenario.run Scenario.one_search))
                Scenario.final_json
                (Decoder.py "Hotovo: {'matched_products': [], 'competitor_advantage_mentioned': true, 'bad_placement_mentioned': false}")
                (JObj [("matched_products", JArr []);
                       ("competitor_advantage_mentioned", JBool true);
                       ("bad_placement_mentioned", JBool false)])
                ltac:(vm_compute; reflexivity) ltac:(vm_compute; reflexivity)
                ltac:(vm_compute; reflexivity) ltac:(vm_compute; reflexivity))
      as (_ & Hok & Hret).
    destruct (Hret _ true false eq_refl) as [r Hr].
    + apply confidences_in_range_checked. vm_compute. reflexivity.
    + vm_compute. discriminate.
    + reflexivity.
    + reflexivity.
    + exists r. split; [exact Hr|].
      destruct (Hok r Hr) as (fields & Hd & H1 & _ & H3 & H4 & _).
      inversion Hd; subst fields.
      split; [apply H1; vm_compute; discriminate|].
      simpl in H3, H4. split; congruence.
  - pose (entry := JObj [("product_name", JStr "CASTROL EDGE 0W-20 1 lt");
                         ("confidence",
                          JNum (940126422213591 # 1125899906842624));
                         ("context", JStr "Castrol Edge")]).
    destruct (@final_answer_reconciles exact_types default_config
                Scenario.listed_by_model Scenario.transcript
                (fst (Scenario.run Scenario.listed_by_model))
                (snd (Scenario.run Scenario.listed_by_model))
                (Scenario.says "{'matched_products': [{'product_name': 'CASTROL EDGE 0W-20 1 lt', 'confidence': 0.835, 'context': 'Castrol Edge'}], 'competitor_advantage_mentioned': true, 'bad_placement_mentioned': false}")
                (Decoder.py "{'matched_products': [{'product_name': 'CASTROL EDGE 0W-20 1 lt', 'confidence': 0.835, 'context': 'Castrol Edge'}], 'competitor_advantage_mentioned': true, 'bad_placement_mentioned': false}")
                (JObj [("matched_products", JArr [entry]);
                       ("competitor_advantage_mentioned", JBool true);
                       ("bad_placement_mentioned", JBool false)])
                ltac:(vm_compute; reflexivity) ltac:(vm_compute; reflexivity)
                ltac:(vm_compute; reflexivity) ltac:(vm_compute; reflexivity))
      as (_ & Hok & Hret).
    assert (Hacc : accumulated default_config
                     (snd (Scenario.run Scenario.listed_by_model)) = [])
      by (vm_compute; reflexivity).
    destruct (Hret _ true false eq_refl) as [r Hr].
    + rewrite Hacc. constructor.
    + intros _. left. exists [entry]. split; [reflexivity|].
      constructor; [|constructor].
      exists [("product_name", JStr "CASTROL EDGE 0W-20 1 lt");
              ("confidence", JNum (940126422213591 # 1125899906842624));
              ("context", JStr "Castrol Edge")],
             (JStr "CASTROL EDGE 0W-20 1 lt"),
             (JNum (940126422213591 # 1125899906842624)),
             (JStr "Castrol Edge"),
             "CASTROL EDGE 0W-20 1 lt",
             (940126422213591 # 1125899906842624),
             "Castrol Edge".
      repeat split; try reflexivity; vm_compute; discriminate.
    + reflexivity.
    + reflexivity.
    + exists r. split; [exact Hr|]. split; [exact Hacc|].
      destruct (Hok r Hr) as (fields & Hd & _ & H2 & H3 & H4 & _).
      inversion Hd; subst fields. specialize (H2 Hacc).
      simpl in H3, H4.
      assert (Hm : matched_products r = [Scenario.castrol_edge_083]).
      { pose proof Hr as Hv. vm_compute in Hv. inversion Hv. reflexivity. }
      split; [exact Hm|]. split; [exact H2|]. split; congruence.
Defined.

(** ** Confidence and similarity score *)




(** ** A final message that is not JSON *)




(** ** The iteration cap *)

(** A model that asks for a search in each of the ten rounds, with a search
    result of score 1.5: the loop runs out, and building the matched
    products after it raises.  So reaching the cap does not always return
    a result. *)
Lemma iteration_cap_can_raise :
  ~ (forall (P : Pydantic) (cfg : config) (srv : services) (text : string)
            (st' : loop_state) (tr' : trace),
        is_blank text = false ->
        rounds cfg srv max_iterations text (initial_state srv text) []
        = Some (st', tr') ->
        exists r,
          process_transcript cfg srv text = (Ok r, tr')
          /\ competitor_advantage_mentioned r = false
          /\ bad_placement_mentioned r = false).
Proof.
  intros H.
  destruct (rounds (P := exact_types) default_config
                   Scenario.never_done_high_score max_iterations
                   Scenario.transcript
                   (initial_state Scenario.never_done_high_score
                                  Scenario.transcript) [])
    as [[st' tr']|] eqn:E; [|vm_compute in E; discriminate].
  destruct (H exact_types default_config Scenario.never_done_high_score
              Scenario.transcript st' tr' eq_refl E) as (r & Hr & _).
  assert (K : fst (Scenario.run Scenario.never_done_high_score)
              = Raise ValidationError) by (vm_compute; reflexivity).
  unfold Scenario.run in K. rewrite Hr in K. discriminate.
Qed.

(** C8, amended. When all ten passes of the loop end with tool calls, the
    code after the loop builds the outcome from the candidates of the
    searches alone, after exactly ten requests to the model.  If their
    confidences all lie between 0 and 1, a result is returned with exactly
    these candidates as products and both flags false; otherwise the
    validation error of [MatchedProduct] is raised. *)
Theorem iteration_cap_falls_back
        (P : Pydantic) (cfg : config) (srv : services) (text : string)
        (st' : loop_state) (tr' : trace) :
  is_blank text = false ->
  rounds cfg srv max_iterations text (initial_state srv text) []
  = Some (st', tr') ->
  process_transcript cfg srv text
  = (function_calls_only text (accumulated cfg tr'), tr')
  /\ chat_calls tr' = 10%nat
  /\ terminal_message tr' = None
  /\ (confidences_in_range (accumulated cfg tr') ->
      exists r,
        process_transcript cfg srv text = (Ok r, tr')
        /\ map as_candidate (matched_products r) = accumulated cfg tr'
        /\ competitor_advantage_mentioned r = false
        /\ bad_placement_mentioned r = false
        /\ raw_text r = text)
  /\ (~ confidences_in_range (accumulated cfg tr') ->
      process_transcript cfg srv text = (Raise ValidationError, tr')).
Proof.
  intros Hb Hr.
  destruct (@rounds_spec P cfg srv text max_iterations _ _ _ _ Hr)
    as (K1 & K2 & K3 & K4); try reflexivity; [constructor|].
  pose proof (accumulated_from_search cfg K3) as Hs.
  destruct (@function_calls_only_spec P text _ Hb Hs) as [Hin Hout].
  unfold process_transcript. rewrite Hb, K1.
  split; [reflexivity|]. split; [exact K2|]. split; [exact K4|]. split.
  - intros R. destruct (Hin R) as (r & -> & H). exists r. auto.
  - intros R. rewrite (Hout R). reflexivity.
Qed.

Lemma iteration_cap_falls_back_witness :
  exists r,
    fst (Scenario.run Scenario.never_done) = Ok r
    /\ List.length (matched_products r) = 10%nat
    /\ competitor_advantage_mentioned r = false
    /\ bad_placement_mentioned r = false.
Proof.
  destruct (rounds (P := exact_types) default_config
                   Scenario.never_done max_iterations Scenario.transcript
                   (initial_state Scenario.never_done Scenario.transcript) [])
    as [[st' tr']|] eqn:E; [|vm_compute in E; discriminate].
  destruct (@iteration_cap_falls_back exact_types default_config
              Scenario.never_done Scenario.transcript st' tr' eq_refl E)
    as (_ & _ & _ & Hin & _).
  vm_compute in E. inversion E; subst. clear E.
  destruct Hin as (r & H1 & H2 & H3 & H4 & _).
  - apply confidences_in_range_checked. vm_compute. reflexivity.
  - exists r. unfold Scenario.run. rewrite H1. simpl.
    split; [reflexivity|]. split; [|auto].
    apply (f_equal (@List.length candidate)) in H2.
    rewrite length_map in H2. exact H2.
Defined.

(** ** Products listed by the model that do not validate *)

Section JsonProducts.
Context {P : Pydantic}.

Lemma MatchedProduct_kwargs_raise (p : json) (e : exn) :
  MatchedProduct_kwargs p = Raise e ->
  e = ValidationError \/ (e = TypeError /\ forall kw, p <> JObj kw).
Proof.
  destruct p as [| | | | |kw]; simpl;
    try (intros H; inversion H; right; split; [reflexivity|discriminate]).
  destruct (lookup "product_name" kw), (lookup "confidence" kw),
    (lookup "context" kw); try (intros H; inversion H; auto).
  left. exact (MatchedProduct_new_raise _ _ _ H).
Qed.

(** A dict without one of the three fields does not validate. *)
Lemma missing_field_is_invalid (kw : list (string * json)) :
  lookup "product_name" kw = None \/ lookup "confidence" kw = None
  \/ lookup "context" kw = None ->
  MatchedProduct_kwargs (JObj kw) = Raise ValidationError.
Proof.
  simpl. intros [H|[H|H]]; rewrite H;
    destruct (lookup "product_name" kw), (lookup "confidence" kw);
    reflexivity.
Qed.

(** A dict whose confidence is a number outside of the range from 0 to 1
    does not validate. *)
Lemma confidence_out_of_range_is_invalid (kw : list (string * json))
      (n x : json) (conf : Q) :
  lookup "product_name" kw = Some n ->
  lookup "confidence" kw = Some (JNum conf) ->
  lookup "context" kw = Some x ->
  ~ (0 <= conf /\ conf <= 1)%Q ->
  MatchedProduct_kwargs (JObj kw) = Raise ValidationError.
Proof.
  intros Hn Hc Hx Hr. simpl. rewrite Hn, Hc, Hx.
  unfold MatchedProduct_new. rewrite as_float_num.
  destruct (as_str n), (as_str x); try reflexivity.
  destruct (Qle_bool 0 conf && Qle_bool conf 1) eqn:E; [|reflexivity].
  apply in_range_iff in E. contradiction.
Qed.

Lemma final_answer_raise (srv : services) (text : string)
      (acc : list candidate) (msg_content : option string) (e : exn) :
  final_answer srv text acc msg_content = Raise e ->
  e = AttributeError \/ e = TypeError \/ e = ValidationError.
Proof.
  assert (PR : forall mps a b,
             ProcessingResult_new mps a b text = Raise e ->
             e = ValidationError).
  { intros mps a b. unfold ProcessingResult_new.
    destruct (as_bool a), (as_bool b); try (intros H; inversion H; reflexivity).
    destruct (is_blank text); intros H; inversion H; reflexivity. }
  unfold final_answer. destruct msg_content as [c|].
  2:{ intros H; inversion H; auto. }
  destruct (json_loads srv (json_text c)) as [d|].
  2:{ unfold function_calls_only.
      destruct (from_function_calls acc) as [mps|e'] eqn:F; simpl.
      - intros H. apply PR in H. auto.
      - intros H. inversion H; subst.
        apply from_function_calls_raise in F. auto. }
  unfold build_result.
  assert (G : forall mps,
             (competitor <- dict_get d "competitor_advantage_mentioned"
                                     (JBool false) ;;
              placement <- dict_get d "bad_placement_mentioned" (JBool false) ;;
              ProcessingResult_new mps competitor placement text) = Raise e ->
             e = AttributeError \/ e = TypeError \/ e = ValidationError).
  { intros mps. destruct d; simpl; try (intros H; inversion H; auto).
    apply PR in H. auto. }
  destruct acc as [|c0 acc].
  - destruct d as [| | | | |fields]; simpl;
      try (intros H; inversion H; auto; fail).
    destruct (lookup "matched_products" fields) as [v|]; simpl.
    2:{ intros H. apply PR in H. auto. }
    destruct (from_json_products v) as [mps|e'] eqn:F; simpl.
    { intros H. apply PR in H. auto. }
    intros H. inversion H; subst.
    destruct v; simpl in F; try (inversion F; auto; fail).
    + destruct (String.eqb s ""); inversion F; auto.
    + apply comprehension_raise in F as (p & _ & F).
      apply MatchedProduct_kwargs_raise in F as [F|[F _]]; auto.
    + destruct fields0; inversion F; auto.
  - destruct (from_function_calls (c0 :: acc)) as [mps|e'] eqn:F.
    + apply G.
    + simpl. intros H. inversion H; subst.
      apply from_function_calls_raise in F. auto.
Qed.
End JsonProducts.



(** ** Tool calls that are not [search_products] *)

(** The arguments of every tool call are decoded before its name is
    looked at: a call to another tool whose arguments are cut off raises
    the decoding error instead of being skipped. *)
Lemma undeclared_tool_can_abort :
  ~ (forall (cfg : config) (srv : services) (tc : tool_call)
            (st : loop_state) (tr : trace),
        function_name tc <> "search_products" ->
        handle_tool_call cfg srv tc st tr = (Ok st, tr)).
Proof.
  intros H.
  specialize (H default_config Scenario.unknown_tool_cut_off
                {| tc_id := "call_123"; function_name := "lookup_price";
                   function_arguments := Decoder.py "{'sku': " |}
                (initial_state Scenario.unknown_tool_cut_off
                               Scenario.transcript) []
                ltac:(discriminate)).
  vm_compute in H. discriminate.
Qed.

(** The run in which this happens asks the model once and raises. *)
Lemma undeclared_tool_cut_off_run :
  fst (Scenario.run Scenario.unknown_tool_cut_off) = Raise JSONDecodeError
  /\ chat_calls (snd (Scenario.run Scenario.unknown_tool_cut_off)) = 1%nat.
Proof. split; vm_compute; reflexivity. Qed.

Lemma skipped_tool_calls (cfg : config) (srv : services)
      (tcs : list tool_call) (st : loop_state) (tr : trace) :
  Forall (fun tc => function_name tc <> "search_products"
                    /\ exists args,
                         json_loads srv (function_arguments tc) = Some args)
         tcs ->
  handle_tool_calls cfg srv tcs st tr = (Ok st, tr).
Proof.
  induction 1 as [|tc tcs [Hn [args Ha]] _ IH]; simpl; [reflexivity|].
  unfold handle_tool_call. rewrite Ha.
  apply String.eqb_neq in Hn. rewrite Hn. exact IH.
Qed.

(** C10, amended. A tool call whose name is not [search_products] and whose
    arguments decode as JSON changes nothing: no message is appended, the
    accumulator stays as it is, no service is called and no exception is
    raised.  A reply made of such calls only is not a final answer: the
    pass ends with the locals unchanged, and the loop continues with the
    remaining passes. *)
Theorem undeclared_tool_is_skipped
        (P : Pydantic) (cfg : config) (srv : services) :
  (forall tc st tr args,
      function_name tc <> "search_products" ->
      json_loads srv (function_arguments tc) = Some args ->
      handle_tool_call cfg srv tc st tr = (Ok st, tr))
  /\ (forall text st tr resp m rest tc tcs,
         chat_completion srv tr (messages st) = Replied resp ->
         choices resp = m :: rest ->
         tool_calls m = Some (tc :: tcs) ->
         Forall (fun tc => function_name tc <> "search_products"
                           /\ exists args,
                                json_loads srv (function_arguments tc)
                                = Some args)
                (tc :: tcs) ->
         iteration cfg srv text st tr
         = (Next st, tr ++ [EvChat (messages st) (Replied resp)])
         /\ forall n,
             while_loop cfg srv (S n) text st tr
             = while_loop cfg srv n text st
                          (tr ++ [EvChat (messages st) (Replied resp)])).
Proof.
  split.
  - intros tc st tr args Hn Ha. unfold handle_tool_call.
    rewrite Ha. apply String.eqb_neq in Hn. rewrite Hn. reflexivity.
  - intros text st tr resp m rest tc tcs Hr Hc Ht Hall.
    assert (E : iteration cfg srv text st tr
                = (Next st, tr ++ [EvChat (messages st) (Replied resp)])).
    { unfold iteration. rewrite Hr, Hc, Ht.
      rewrite (@skipped_tool_calls cfg srv (tc :: tcs) st _ Hall).
      reflexivity. }
    split; [exact E|]. intros n. simpl. rewrite E. reflexivity.
Qed.

Lemma undeclared_tool_is_skipped_witness :
  iteration (P := exact_types) default_config Scenario.unknown_tool
            Scenario.transcript
            (initial_state Scenario.unknown_tool Scenario.transcript) []
  = (Next (initial_state Scenario.unknown_tool Scenario.transcript),
     [EvChat (messages (initial_state Scenario.unknown_tool Scenario.transcript))
             (Replied {| choices :=
                           [Scenario.call "lookup_price" "{'sku': 'A5'}"] |})]).
Proof.
  destruct (undeclared_tool_is_skipped exact_types default_config
              Scenario.unknown_tool) as [_ H].
  destruct (H Scenario.transcript
              (initial_state Scenario.unknown_tool Scenario.transcript) []
              {| choices := [Scenario.call "lookup_price" "{'sku': 'A5'}"] |}
              (Scenario.call "lookup_price" "{'sku': 'A5'}") []
              {| tc_id := "call_123"; function_name := "lookup_price";
                 function_arguments := Decoder.py "{'sku': 'A5'}" |} []
              eq_refl eq_refl eq_refl) as [E _].
  - constructor; [|constructor]. split; [discriminate|].
    eexists. vm_compute. reflexivity.
  - exact E.
Defined.

(** ** Failures of the embedding service and of the vector search *)

Lemma aborted_may_surface (e : exn) : aborted e -> may_surface e.
Proof.
  intros [->|[->|[->|[msg ->]]]]; exact I.
Qed.

(** Every exception that leaves [process_transcript] is one of those the
    function lets through. *)
Lemma raised_may_surface (P : Pydantic) (cfg : config) (srv : services)
      (text : string) (e : exn) :
  fst (process_transcript cfg srv text) = Raise e -> may_surface e.
Proof.
  destruct (is_blank text) eqn:Hb.
  - unfold process_transcript. rewrite Hb. simpl.
    intros H. inversion H. reflexivity.
  - destruct (@process_transcript_spec P cfg srv text Hb) as (Hq & _ & H).
    intros He. rewrite He in H.
    destruct (terminal_message _) as [m|].
    + symmetry in H. apply final_answer_raise in H as [->|[->| ->]]; exact I.
    + destruct H as [H|(e' & H & Ha)].
      * symmetry in H. unfold function_calls_only in H.
        destruct (from_function_calls _) as [mps|e'] eqn:F; simpl in H.
        -- rewrite ProcessingResult_new_flags in H by assumption. discriminate.
        -- inversion H; subst. apply from_function_calls_raise in F.
           subst. exact I.
      * inversion H; subst. apply aborted_may_surface. exact Ha.
Qed.

(** C4. Whatever [generate_embedding] raises (its own guard, or a failure
    of the embedding service) and whatever failure the vector search
    reports, [_search_products_function] returns the empty list.  A
    [search_products] call that resolves to the empty list leaves the
    accumulator as it is and is answered with an empty tool message, and
    the loop goes on.  When the arguments are a dict without [query], or
    with an empty one, this happens without any service being called.  No
    exception of the embedding service or of the vector search, and no
    [ValueError] of the embedding guard, ever leaves
    [process_transcript]. *)
Theorem search_failures_are_contained
        (P : Pydantic) (cfg : config) (srv : services) :
  (forall tr query e tr1,
      generate_embedding srv tr query = (Raise e, tr1) ->
      _search_products_function cfg srv tr query = ([], tr1))
  /\ (forall tr query v tr1 msg,
         generate_embedding srv tr query = (Ok v, tr1) ->
         vector_search srv tr1 v (VECTOR_SEARCH_TOP_K cfg) = Failed msg ->
         _search_products_function cfg srv tr query
         = ([], tr1 ++ [EvSearch query v (VECTOR_SEARCH_TOP_K cfg)
                                 (Failed msg)]))
  /\ (forall tc st tr args query tr',
         json_loads srv (function_arguments tc) = Some args ->
         function_name tc = "search_products" ->
         dict_get args "query" (JStr "") = Ok query ->
         _search_products_function cfg srv tr query = ([], tr') ->
         handle_tool_call cfg srv tc st tr
         = (Ok {| messages :=
                    messages st
                    ++ [AssistantToolCall tc;
                        ToolMessage (tc_id tc) (function_name tc) []];
                  all_matched_products := all_matched_products st |}, tr'))
  /\ (forall tc st tr fields,
         json_loads srv (function_arguments tc) = Some (JObj fields) ->
         function_name tc = "search_products" ->
         lookup "query" fields = None
         \/ lookup "query" fields = Some (JStr "") ->
         handle_tool_call cfg srv tc st tr
         = (Ok {| messages :=
                    messages st
                    ++ [AssistantToolCall tc;
                        ToolMessage (tc_id tc) (function_name tc) []];
                  all_matched_products := all_matched_products st |}, tr))
  /\ (forall text e,
         fst (process_transcript cfg srv text) = Raise e ->
         may_surface e
         /\ (forall msg, e <> CollaboratorError Embedding msg)
         /\ (forall msg, e <> CollaboratorError VectorSearch msg)
         /\ e <> ValueError "Text cannot be empty").
Proof.
  assert (A : forall tc st tr args query tr',
             json_loads srv (function_arguments tc) = Some args ->
             function_name tc = "search_products" ->
             dict_get args "query" (JStr "") = Ok query ->
             _search_products_function cfg srv tr query = ([], tr') ->
             handle_tool_call cfg srv tc st tr
             = (Ok {| messages :=
                        messages st
                        ++ [AssistantToolCall tc;
                            ToolMessage (tc_id tc) (function_name tc) []];
                      all_matched_products := all_matched_products st |}, tr')).
  { intros tc st tr args query tr' Ha Hn Hq Hs. unfold handle_tool_call.
    rewrite Ha, Hn, Hq, Hs. simpl. rewrite app_nil_r. reflexivity. }
  split; [|split; [|split; [exact A|split]]].
  - intros tr query e tr1 H. unfold _search_products_function.
    rewrite H. reflexivity.
  - intros tr query v tr1 msg H1 H2. unfold _search_products_function.
    rewrite H1, H2. reflexivity.
  - intros tc st tr fields Ha Hn Hq.
    apply A with (args := JObj fields) (query := JStr ""); auto.
    simpl. destruct Hq as [->| ->]; reflexivity.
  - intros text e He. apply raised_may_surface in He.
    split; [exact He|].
    destruct e as [msg| | | | | |[ | | ] msg]; simpl in He;
      repeat split; try discriminate; try contradiction.
    subst msg. discriminate.
Qed.

Lemma search_failures_are_contained_witness :
  (exists tr',
      handle_tool_call default_config Scenario.embedding_down
        {| tc_id := "call_123"; function_name := "search_products";
           function_arguments :=
             Decoder.py "{'query': 'Castrol Magnatec 5W-30 A5'}" |}
        (initial_state Scenario.embedding_down Scenario.transcript) []
      = (Ok {| messages :=
                 messages (initial_state Scenario.embedding_down
                                         Scenario.transcript)
                 ++ [AssistantToolCall
                       {| tc_id := "call_123";
                          function_name := "search_products";
                          function_arguments :=
                            Decoder.py "{'query': 'Castrol Magnatec 5W-30 A5'}" |};
                     ToolMessage "call_123" "search_products" []];
               all_matched_products := [] |}, tr'))
  /\ handle_tool_call default_config Scenario.one_search
       {| tc_id := "call_7"; function_name := "search_products";
          function_arguments := "{}" |}
       (initial_state Scenario.one_search Scenario.transcript) []
     = (Ok {| messages :=
                messages (initial_state Scenario.one_search Scenario.transcript)
                ++ [AssistantToolCall
                      {| tc_id := "call_7"; function_name := "search_products";
                         function_arguments := "{}" |};
                    ToolMessage "call_7" "search_products" []];
              all_matched_products := [] |}, []).
Proof.
  split.
  - destruct (search_failures_are_contained exact_types default_config
                Scenario.embedding_down) as (_ & _ & H & _).
    eexists.
    apply (H {| tc_id := "call_123"; function_name := "search_products";
                function_arguments :=
                  Decoder.py "{'query': 'Castrol Magnatec 5W-30 A5'}" |}
             (initial_state Scenario.embedding_down Scenario.transcript) []
             (JObj [("query", JStr "Castrol Magnatec 5W-30 A5")])
             (JStr "Castrol Magnatec 5W-30 A5")
             [EvEmbed "Castrol Magnatec 5W-30 A5" (Failed "connection refused")]);
      reflexivity.
  - destruct (search_failures_are_contained exact_types default_config
                Scenario.one_search) as (_ & _ & _ & H & _).
    apply (H {| tc_id := "call_7"; function_name := "search_products";
                function_arguments := "{}" |}
             (initial_state Scenario.one_search Scenario.transcript) [] []);
      [reflexivity|reflexivity|left; reflexivity].
Defined.

(** * Further properties of the loop *)

(** ** Stripped text *)

Lemma rstrip_idempotent (s : string) : rstrip (rstrip s) = rstrip s.
Proof.
  induction s as [|c s IH]; simpl; [reflexivity|].
  destruct (rstrip s) as [|d t] eqn:E.
  - destruct (is_space c) eqn:Hc; simpl; [reflexivity|].
    rewrite Hc. reflexivity.
  - simpl. simpl in IH. rewrite IH. reflexivity.
Qed.

Lemma lstrip_first (s : string) :
  match lstrip s with
  | EmptyString => True
  | String c _ => is_space c = false
  end.
Proof.
  induction s as [|c s IH]; simpl; [exact I|].
  destruct (is_space c) eqn:Hc; [exact IH|exact Hc].
Qed.

Lemma rstrip_keeps_first (c : ascii) (s : string) :
  is_space c = false -> exists t, rstrip (String c s) = String c t.
Proof.
  intros Hc. simpl. destruct (rstrip s); rewrite ?Hc; eauto.
Qed.

Lemma strip_first (s : string) :
  match strip s with
  | EmptyString => True
  | String c _ => is_space c = false
  end.
Proof.
  unfold strip. pose proof (lstrip_first s) as H.
  destruct (lstrip s) as [|c t]; [exact I|].
  destruct (@rstrip_keeps_first c t H) as [u ->]. exact H.
Qed.

(** Stripping a stripped text changes nothing. *)
Lemma strip_idempotent (s : string) : strip (strip s) = strip s.
Proof.
  pose proof (strip_first s) as H. unfold strip at 1.
  destruct (strip s) as [|c t] eqn:E; [reflexivity|].
  simpl lstrip. rewrite H. rewrite <- E. unfold strip.
  apply rstrip_idempotent.
Qed.

Lemma strip_not_blank (s : string) :
  strip s <> EmptyString -> is_blank (strip s) = false.
Proof.
  intros H. unfold is_blank. rewrite strip_idempotent.
  apply String.eqb_neq in H. rewrite H. reflexivity.
Qed.

(** ** An invariant principle for the loop *)

Lemma resolution_of_search (cfg : config) (srv : services) (tr : trace)
      (query : json) :
  exists evs,
    snd (_search_products_function cfg srv tr query) = tr ++ evs
    /\ resolution cfg srv tr query
                  (fst (_search_products_function cfg srv tr query)) evs.
Proof.
  unfold _search_products_function.
  destruct (generate_embedding_cases srv tr query)
    as [(e & -> & _)|(s & Hq & Hs & ->)].
  - exists []. rewrite app_nil_r. split; [reflexivity|constructor].
  - destruct (embeddings_create srv tr (strip s)) as [v|msg] eqn:Ev; simpl.
    + subst query.
      remember (vector_search srv (tr ++ [EvEmbed (strip s) (Replied v)]) v
                              (VECTOR_SEARCH_TOP_K cfg)) as r eqn:Er.
      exists [EvEmbed (strip s) (Replied v);
              EvSearch (JStr s) v (VECTOR_SEARCH_TOP_K cfg) r].
      split.
      * destruct r; simpl; rewrite <- app_assoc; reflexivity.
      * assert (K := @Searched cfg srv tr (JStr s) s v r eq_refl Hs Ev
                               (eq_sym Er)).
        destruct r; exact K.
    + eexists. split; [reflexivity|]. simpl. apply NoVector; auto.
Qed.

Lemma resolution_accumulated (cfg : config) (srv : services) (tr : trace)
      (query : json) (results : list (string * Q)) (evs : trace) :
  resolution cfg srv tr query results evs ->
  quiet evs /\ accumulated cfg evs = map (with_context query) results.
Proof.
  intros [|s msg Hq _ _|s v r Hq _ _ _]; subst.
  - split; [constructor|reflexivity].
  - split; [repeat constructor|reflexivity].
  - split; [repeat constructor|].
    destruct r; simpl; rewrite ?app_nil_r;
      [symmetry; apply tagged_results_retained|reflexivity].
Qed.

(** A handled tool call either changes nothing, or is a [search_products]
    call whose query was resolved. *)
Lemma handle_tool_call_cases (cfg : config) (srv : services)
      (tc : tool_call) (st : loop_state) (tr : trace) :
  (exists e, handle_tool_call cfg srv tc st tr = (Raise e, tr))
  \/ handle_tool_call cfg srv tc st tr = (Ok st, tr)
  \/ (exists query results evs,
         function_name tc = "search_products"
         /\ resolution cfg srv tr query results evs
         /\ handle_tool_call cfg srv tc st tr
            = (Ok (after_search st tc query results), tr ++ evs)).
Proof.
  unfold handle_tool_call.
  destruct (json_loads srv (function_arguments tc)) as [args|]; [|eauto].
  destruct (String.eqb (function_name tc) "search_products") eqn:Hn; [|auto].
  apply String.eqb_eq in Hn.
  destruct (dict_get args "query" (JStr "")) as [query|e]; [|eauto].
  destruct (resolution_of_search cfg srv tr query) as (evs & H1 & H2).
  destruct (_search_products_function cfg srv tr query) as [results tr'].
  simpl in *. subst tr'. right. right. exists query, results, evs.
  repeat split; auto.
Qed.

Section LoopInvariant.
Context {P : Pydantic}.
Variable cfg : config.
Variable srv : services.
Variable text : string.
Variable Inv : loop_state -> trace -> Prop.

Hypothesis Inv_chat :
  forall st tr r, Inv st tr -> Inv st (tr ++ [EvChat (messages st) r]).
Hypothesis Inv_search :
  forall tc st tr query results evs,
    Inv st tr ->
    function_name tc = "search_products" ->
    resolution cfg srv tr query results evs ->
    Inv (after_search st tc query results) (tr ++ evs).

Lemma handle_tool_calls_invariant (tcs : list tool_call) :
  forall st tr,
    Inv st tr ->
    exists st',
      Inv st' (snd (handle_tool_calls cfg srv tcs st tr))
      /\ forall st1, fst (handle_tool_calls cfg srv tcs st tr) = Ok st1 ->
                     st1 = st'.
Proof.
  induction tcs as [|tc tcs IH]; intros st tr HI; simpl.
  - exists st. split; [exact HI|]. intros st1 H. inversion H. reflexivity.
  - destruct (handle_tool_call_cases cfg srv tc st tr)
      as [(e & ->)|[->|(query & results & evs & Hn & Hr & ->)]].
    + exists st. split; [exact HI|discriminate].
    + apply IH. exact HI.
    + apply IH. apply Inv_search; assumption.
Qed.

Lemma iteration_invariant (st : loop_state) (tr : trace) :
  Inv st tr ->
  exists st',
    Inv st' (snd (iteration cfg srv text st tr))
    /\ forall st1, fst (iteration cfg srv text st tr) = Next st1 -> st1 = st'.
Proof.
  intros HI. unfold iteration.
  pose proof (Inv_chat (chat_completion srv tr (messages st)) HI) as HI'.
  destruct (chat_completion srv tr (messages st)) as [resp|msg].
  2:{ exists st. split; [exact HI'|discriminate]. }
  destruct (choices resp) as [|m rest].
  { exists st. split; [exact HI'|discriminate]. }
  destruct (tool_calls m) as [[|tc tcs]|].
  1,3: exists st; split; [exact HI'|discriminate].
  destruct (handle_tool_calls_invariant (tc :: tcs) HI') as (st' & H1 & H2).
  destruct (handle_tool_calls cfg srv (tc :: tcs) st _) as [[st1|e] tr1].
  - exists st'. split; [exact H1|]. intros st2 H. inversion H; subst.
    apply H2. reflexivity.
  - exists st'. split; [exact H1|discriminate].
Qed.

Lemma while_loop_invariant (n : nat) :
  forall st tr,
    Inv st tr -> exists st', Inv st' (snd (while_loop cfg srv n text st tr)).
Proof.
  induction n as [|n IH]; intros st tr HI; simpl.
  - exists st. exact HI.
  - destruct (iteration_invariant HI) as (st' & H1 & H2).
    destruct (iteration cfg srv text st tr) as [[st1|out] tr1]; simpl in *.
    + rewrite (H2 st1 eq_refl). apply IH. exact H1.
    + exists st'. exact H1.
Qed.

(** What holds of the locals and the calls at the start, and is kept by a
    request to the model and by the resolution of a query, holds at the
    end of the run for the calls made. *)
Lemma run_invariant :
  Inv (initial_state srv text) [] ->
  exists st, Inv st (snd (process_transcript cfg srv text)).
Proof.
  intros H0. unfold process_transcript.
  destruct (is_blank text).
  - exists (initial_state srv text). exact H0.
  - apply while_loop_invariant. exact H0.
Qed.
End LoopInvariant.

(** ** Splitting a trace at one of its events *)

Lemma split_snoc {A} (l before after : list A) (x y : A) :
  l ++ [x] = before ++ y :: after ->
  (after = [] /\ l = before /\ x = y)
  \/ (exists after', after = after' ++ [x] /\ l = before ++ y :: after').
Proof.
  intros H. destruct (exists_last (l := y :: after) ltac:(discriminate))
    as (front & z & E).
  destruct after as [|a after].
  - left. apply (app_inj_tail l before x y) in H. tauto.
  - right. destruct (exists_last (l := a :: after) ltac:(discriminate))
      as (after' & w & E').
    rewrite E' in H.
    change (before ++ y :: after' ++ [w])
      with (before ++ (y :: after') ++ [w]) in H.
    rewrite app_assoc in H. apply app_inj_tail in H as [H1 H2].
    exists after'. subst. auto.
Qed.

Lemma split_quiet (tr evs before after : trace) (m : list chat_message)
      (r : reply response) :
  quiet evs ->
  tr ++ evs = before ++ EvChat m r :: after ->
  exists after', tr = before ++ EvChat m r :: after'.
Proof.
  intros Hq. revert after.
  induction evs as [|ev evs IH] using rev_ind; intros after H.
  - rewrite app_nil_r in H. eauto.
  - apply Forall_app in Hq as [Hq Hev]. inversion Hev as [|? ? Hc _]; subst.
    rewrite app_assoc in H. apply split_snoc in H
      as [(_ & _ & E)|(after' & _ & E)].
    + subst ev. discriminate.
    + exact (IH Hq _ E).
Qed.

(** ** The requests to the embedding service and to the vector search *)

(** X1. The embedding service is never asked for an empty text, nor for a
    text with whitespace at either end: every request carries a stripped
    text that is not blank. *)
Theorem embedding_requests_are_stripped
        (P : Pydantic) (cfg : config) (srv : services) (text : string)
        (t : string) (r : reply embedding) :
  In (EvEmbed t r) (snd (process_transcript cfg srv text)) ->
  t <> EmptyString /\ strip t = t /\ is_blank t = false.
Proof.
  destruct (@run_invariant P cfg srv text
              (fun _ tr => forall t r, In (EvEmbed t r) tr ->
                 t <> EmptyString /\ strip t = t /\ is_blank t = false))
    as (_ & H).
  - intros st tr r0 HI t0 r1 Hin. apply in_app_or in Hin as [Hin|Hin].
    + exact (HI _ _ Hin).
    + destruct Hin as [Hin|[]]. discriminate.
  - intros tc st tr query results evs HI _ Hr t0 r1 Hin.
    apply in_app_or in Hin as [Hin|Hin]; [exact (HI _ _ Hin)|].
    assert (K : forall s, strip s <> EmptyString ->
                 strip s <> EmptyString /\ strip (strip s) = strip s
                 /\ is_blank (strip s) = false).
    { intros s Hs. repeat split; auto using strip_idempotent, strip_not_blank. }
    destruct Hr as [|s msg _ Hs _|s v r2 _ Hs _ _]; simpl in Hin.
    + contradiction.
    + destruct Hin as [Hin|[]]. inversion Hin; subst. auto.
    + destruct Hin as [Hin|[Hin|[]]]; [|discriminate].
      inversion Hin; subst. auto.
  - intros t0 r0 [].
  - intros Hin. exact (H _ _ Hin).
Qed.

Lemma embedding_requests_are_stripped_witness :
  strip "Castrol Magnatec 5W-30 A5" = "Castrol Magnatec 5W-30 A5".
Proof.
  apply (@embedding_requests_are_stripped exact_types default_config
           Scenario.one_search Scenario.transcript
           "Castrol Magnatec 5W-30 A5" (Replied [1 # 2; 1 # 4])).
  vm_compute. auto.
Defined.

(** X2. Every vector search comes right after the request to the embedding
    service whose answer it uses: the query is a string, the embedding
    service was asked for the stripped query and answered with the vector
    that is searched for, and the number of results asked for is
    [VECTOR_SEARCH_TOP_K]. *)
Theorem search_follows_embedding
        (P : Pydantic) (cfg : config) (srv : services) (text : string)
        (before after : trace) (query : json) (v : embedding) (k : nat)
        (r : reply (list SearchResult)) :
  snd (process_transcript cfg srv text)
  = before ++ EvSearch query v k r :: after ->
  k = VECTOR_SEARCH_TOP_K cfg
  /\ exists earlier s,
       query = JStr s
       /\ before = earlier ++ [EvEmbed (strip s) (Replied v)].
Proof.
  destruct (@run_invariant P cfg srv text
              (fun _ tr => forall before after query v k r,
                 tr = before ++ EvSearch query v k r :: after ->
                 k = VECTOR_SEARCH_TOP_K cfg
                 /\ exists earlier s,
                      query = JStr s
                      /\ before = earlier ++ [EvEmbed (strip s) (Replied v)]))
    as (_ & H).
  - intros st tr r0 HI b a q v0 k0 r1 E.
    apply split_snoc in E as [(_ & _ & E)|(a' & _ & E)]; [discriminate|].
    exact (HI _ _ _ _ _ _ E).
  - intros tc st tr q0 results evs HI _ Hr b a q v0 k0 r1 E.
    destruct Hr as [|s msg _ _ _|s v1 r2 _ _ _ _].
    + rewrite app_nil_r in E. exact (HI _ _ _ _ _ _ E).
    + apply split_snoc in E as [(_ & _ & E)|(a' & _ & E)]; [discriminate|].
      exact (HI _ _ _ _ _ _ E).
    + change [EvEmbed (strip s) (Replied v1);
              EvSearch (JStr s) v1 (VECTOR_SEARCH_TOP_K cfg) r2]
        with ([EvEmbed (strip s) (Replied v1)]
              ++ [EvSearch (JStr s) v1 (VECTOR_SEARCH_TOP_K cfg) r2]) in E.
      rewrite app_assoc in E.
      apply split_snoc in E as [(_ & E1 & E2)|(a' & _ & E)].
      * inversion E2; subst. split; [reflexivity|]. eauto.
      * apply split_snoc in E as [(_ & _ & E)|(a'' & _ & E)]; [discriminate|].
        exact (HI _ _ _ _ _ _ E).
  - intros b a q v0 k0 r0 E. destruct b; discriminate.
  - intros E. exact (H _ _ _ _ _ _ E).
Qed.

Lemma search_follows_embedding_witness :
  3%nat = VECTOR_SEARCH_TOP_K default_config
  /\ exists earlier s,
       JStr "Castrol Magnatec 5W-30 A5" = JStr s
       /\ [EvChat (messages (initial_state Scenario.one_search
                                           Scenario.transcript))
                  (Replied {| choices := [Scenario.search_castrol] |});
           EvEmbed "Castrol Magnatec 5W-30 A5" (Replied [1 # 2; 1 # 4])]
          = earlier ++ [EvEmbed (strip s) (Replied [1 # 2; 1 # 4])].
Proof.
  eapply (@search_follows_embedding exact_types default_config
            Scenario.one_search Scenario.transcript).
  vm_compute. reflexivity.
Defined.

(** ** The conversation *)

Lemma extends_refl {A} (a : list A) : extends a a.
Proof. exists []. rewrite app_nil_r. reflexivity. Qed.

Lemma extends_app {A} (a b more : list A) : extends a b -> extends a (b ++ more).
Proof. intros [m ->]. exists (m ++ more). rewrite app_assoc. reflexivity. Qed.

Lemma growing_snoc {A} (l : list (list A)) (x : list A) :
  growing l -> Forall (fun a => extends a x) l -> growing (l ++ [x]).
Proof.
  induction l as [|a l IH]; simpl; intros Hg Hx.
  - split; [constructor|exact I].
  - destruct Hg as [Ha Hg]. inversion Hx as [|? ? Hax Hlx]; subst.
    split; [|exact (IH Hg Hlx)].
    apply Forall_app. split; [exact Ha|]. constructor; [exact Hax|constructor].
Qed.

Lemma conversations_app (a b : trace) :
  conversations (a ++ b) = conversations a ++ conversations b.
Proof. unfold conversations. apply flat_map_app. Qed.

Lemma conversations_quiet (evs : trace) : quiet evs -> conversations evs = [].
Proof.
  induction 1 as [|ev evs Hev _ IH]; simpl; [reflexivity|].
  destruct ev; simpl in Hev; try discriminate; exact IH.
Qed.

(** The loop only adds calls to those already made. *)
Lemma while_loop_appends (P : Pydantic) (cfg : config) (srv : services)
      (text : string) (n : nat) (st : loop_state) (tr : trace) :
  exists evs, snd (while_loop cfg srv n text st tr) = tr ++ evs.
Proof.
  destruct (@while_loop_invariant P cfg srv text
              (fun _ tr' => exists evs, tr' = tr ++ evs)) with (n := n)
              (st := st) (tr := tr) as (_ & H).
  - intros st0 tr0 r [evs ->]. exists (evs ++ [EvChat (messages st0) r]).
    rewrite app_assoc. reflexivity.
  - intros tc st0 tr0 q res evs0 [evs ->] _ _. exists (evs ++ evs0).
    rewrite app_assoc. reflexivity.
  - exists []. rewrite app_nil_r. reflexivity.
  - exact H.
Qed.

Lemma while_loop_step (P : Pydantic) (cfg : config) (srv : services)
      (text : string) (n : nat) (st : loop_state) (tr : trace) :
  while_loop cfg srv (S n) text st tr
  = match iteration cfg srv text st tr with
    | (Next st', tr') => while_loop cfg srv n text st' tr'
    | (Done r, tr') => (r, tr')
    end.
Proof. reflexivity. Qed.

(** A text that passes the guard is sent to the model: the first call of
    the run is a request with the system prompt and the user message. *)
Lemma first_request (P : Pydantic) (cfg : config) (srv : services)
      (text : string) :
  is_blank text = false ->
  exists r rest,
    snd (process_transcript cfg srv text)
    = EvChat (messages (initial_state srv text)) r :: rest.
Proof.
  intros Hb. unfold process_transcript. rewrite Hb.
  unfold max_iterations. rewrite while_loop_step.
  destruct (@iteration_spec P cfg srv text (initial_state srv text) [])
    as (evs & H1 & _).
  destruct (iteration cfg srv text (initial_state srv text) [])
    as [[st1|out] tr1]; cbn [snd app] in H1; subst tr1.
  - match goal with
    | |- context [while_loop cfg srv ?n text st1 ?t] =>
        destruct (while_loop_appends P cfg srv text n st1 t) as [evs' E]
    end.
    rewrite E. cbn [app]. eauto.
  - cbn [snd]. eauto.
Qed.

(** X3. The conversation only grows.  No request is sent for a blank
    transcript; otherwise the first request carries exactly the system
    prompt and the user message with the transcript, and the conversation
    of every request is the conversation of each earlier request with
    messages added at its end. *)
Theorem conversation_only_grows
        (P : Pydantic) (cfg : config) (srv : services) (text : string) :
  let sent := conversations (snd (process_transcript cfg srv text)) in
  growing sent
  /\ Forall (extends (messages (initial_state srv text))) sent
  /\ (is_blank text = true -> sent = [])
  /\ (is_blank text = false ->
      exists rest, sent = messages (initial_state srv text) :: rest).
Proof.
  intros sent. subst sent.
  destruct (@run_invariant P cfg srv text
              (fun st tr =>
                 growing (conversations tr)
                 /\ Forall (fun c => extends c (messages st)) (conversations tr)
                 /\ Forall (extends (messages (initial_state srv text)))
                           (conversations tr)
                 /\ extends (messages (initial_state srv text)) (messages st)))
    as (st & Hg & _ & Hi & _).
  - intros st tr r (Hg & Hs & Hi & Hm).
    rewrite conversations_app. simpl.
    split; [apply growing_snoc; assumption|].
    split. { apply Forall_app. split; [exact Hs|].
             constructor; [apply extends_refl|constructor]. }
    split; [|exact Hm].
    apply Forall_app. split; [exact Hi|]. constructor; [exact Hm|constructor].
  - intros tc st tr q res evs (Hg & Hs & Hi & Hm) _ Hr.
    destruct (resolution_accumulated Hr) as [Hq _].
    rewrite conversations_app, (conversations_quiet Hq), app_nil_r.
    split; [exact Hg|]. split; [|split; [exact Hi|]].
    + eapply Forall_impl; [|exact Hs]. intros c Hc.
      apply extends_app. exact Hc.
    + apply extends_app. exact Hm.
  - simpl. repeat split; try constructor. apply extends_refl.
  - split; [exact Hg|]. split; [exact Hi|]. split.
    + intros Hb. unfold process_transcript. rewrite Hb. reflexivity.
    + intros Hb. destruct (@first_request P cfg srv text Hb) as (r & rest & ->).
      cbn [conversations flat_map app]. eauto.
Qed.

Lemma conversation_only_grows_witness :
  exists rest,
    conversations (snd (Scenario.run Scenario.one_search))
    = messages (initial_state Scenario.one_search Scenario.transcript) :: rest.
Proof.
  destruct (conversation_only_grows exact_types default_config
              Scenario.one_search Scenario.transcript) as (_ & _ & _ & H).
  apply H. reflexivity.
Defined.

(** X4. What the model is shown.  The conversation of every request is the
    system prompt and the user message followed by one pair of messages per
    [search_products] call handled so far: the tool call, then a tool
    message with the identifier and the name of that call.  The results in
    these tool messages, taken together and in order, are exactly the
    candidates accumulated from the searches made before the request. *)
Theorem conversation_shows_accumulator
        (P : Pydantic) (cfg : config) (srv : services) (text : string)
        (before after : trace) (msgs : list chat_message)
        (r : reply response) :
  snd (process_transcript cfg srv text) = before ++ EvChat msgs r :: after ->
  exists calls,
    msgs = messages (initial_state srv text) ++ flat_map exchange calls
    /\ Forall (fun x => function_name (fst x) = "search_products") calls
    /\ flat_map snd calls = accumulated cfg before.
Proof.
  remember (messages (initial_state srv text)) as init eqn:Hinit.
  set (shape := fun (tr : trace) (msgs : list chat_message) =>
         exists calls,
           msgs = init ++ flat_map exchange calls
           /\ Forall (fun x => function_name (fst x) = "search_products") calls
           /\ flat_map snd calls = accumulated cfg tr).
  destruct (@run_invariant P cfg srv text
              (fun st tr =>
                 shape tr (messages st)
                 /\ forall before after msgs r,
                      tr = before ++ EvChat msgs r :: after ->
                      shape before msgs))
    as (_ & _ & H).
  - intros st tr r0 [Hs Hold]. split.
    + destruct Hs as (calls & H1 & H2 & H3). exists calls.
      rewrite accumulated_app. simpl. rewrite app_nil_r. auto.
    + intros b a m r1 E.
      apply split_snoc in E as [(_ & <- & E)|(a' & _ & E)].
      * inversion E; subst. exact Hs.
      * exact (Hold _ _ _ _ E).
  - intros tc st tr q res evs [Hs Hold] Hn Hr.
    destruct (resolution_accumulated Hr) as [Hq Hacc]. split.
    + destruct Hs as (calls & H1 & H2 & H3).
      exists (calls ++ [(tc, map (with_context q) res)]).
      unfold after_search. simpl messages.
      rewrite !flat_map_app, H1, H3, accumulated_app, Hacc. simpl.
      rewrite !app_nil_r, <- app_assoc.
      repeat split; auto.
      apply Forall_app. split; [exact H2|]. constructor; [exact Hn|constructor].
    + intros b a m r1 E.
      destruct (@split_quiet tr evs b a m r1 Hq E) as [a' E'].
      exact (Hold _ _ _ _ E').
  - split.
    + exists []. rewrite <- Hinit. simpl. rewrite app_nil_r.
      repeat split. constructor.
    + intros b a m r0 E. destruct b; discriminate.
  - intros E. exact (H _ _ _ _ E).
Qed.

Lemma conversation_shows_accumulator_witness :
  exists calls : list (tool_call * list candidate),
    Forall (fun x => function_name (fst x) = "search_products") calls
    /\ flat_map snd calls
       = [ {| c_product_name := "CASTROL MAGNATEC 5W-30 A5 5 lt";
              c_confidence := 7746191359077253 # 9007199254740992;
              c_context := JStr "Castrol Magnatec 5W-30 A5" |} ].
Proof.
  destruct (@conversation_shows_accumulator exact_types default_config
              Scenario.one_search Scenario.transcript
              (firstn 3 (snd (Scenario.run Scenario.one_search)))
              []
              (messages (initial_state Scenario.one_search Scenario.transcript)
               ++ exchange
                    ({| tc_id := "call_123";
                        function_name := "search_products";
                        function_arguments :=
                          Decoder.py "{'query': 'Castrol Magnatec 5W-30 A5'}" |},
                     [ {| c_product_name := "CASTROL MAGNATEC 5W-30 A5 5 lt";
                          c_confidence := 7746191359077253 # 9007199254740992;
                          c_context := JStr "Castrol Magnatec 5W-30 A5" |} ]))
              (Replied {| choices := [Scenario.final_json] |})
              ltac:(vm_compute; reflexivity))
    as (calls & _ & Hn & H).
  exists calls. split; [exact Hn|]. rewrite H. vm_compute. reflexivity.
Defined.

(** ** A failure of the language model *)

Lemma ends_on_failure_last_chat (tr : trace) (msg : string) :
  ends_on_failure tr msg -> last_chat tr = Some (Failed msg).
Proof.
  intros (before & m & ->). rewrite last_chat_app. reflexivity.
Qed.

Lemma function_calls_only_raise (P : Pydantic) (text : string)
      (acc : list candidate) (e : exn) :
  function_calls_only text acc = Raise e -> e = ValidationError.
Proof.
  unfold function_calls_only.
  destruct (from_function_calls acc) as [mps|e'] eqn:F; simpl.
  - unfold ProcessingResult_new. rewrite !as_bool_bool.
    destruct (is_blank text); intros H; inversion H; reflexivity.
  - intros H. inversion H; subst. exact (from_function_calls_raise _ F).
Qed.

(** After an answer of the model, whatever ends the pass is not an error
    of the language model. *)
Lemma iteration_after_reply (P : Pydantic) (cfg : config) (srv : services)
      (text : string) (st : loop_state) (tr : trace) (resp : response)
      (out : result ProcessingResult) (msg : string) :
  chat_completion srv tr (messages st) = Replied resp ->
  fst (iteration cfg srv text st tr) = Done out ->
  out <> Raise (CollaboratorError LanguageModel msg).
Proof.
  intros Hr. unfold iteration. rewrite Hr.
  destruct (choices resp) as [|m rest].
  { simpl. intros H. inversion H. discriminate. }
  assert (F : forall acc c,
             final_answer srv text acc c
             <> Raise (CollaboratorError LanguageModel msg)).
  { intros acc c H. apply final_answer_raise in H as [H|[H|H]]; discriminate. }
  destruct (tool_calls m) as [[|tc tcs]|];
    try (simpl; intros H; inversion H; apply F).
  destruct (@handle_tool_calls_spec cfg srv (tc :: tcs) st
              (tr ++ [EvChat (messages st) (Replied resp)]))
    as (evs & _ & _ & _ & H4).
  destruct (handle_tool_calls cfg srv (tc :: tcs) st _) as [[st'|e] tr'];
    simpl in *; [discriminate|].
  intros H. inversion H. destruct H4; subst; discriminate.
Qed.

Lemma while_loop_failure (P : Pydantic) (cfg : config) (srv : services)
      (text : string) (n : nat) :
  forall (st : loop_state) (tr : trace) (msg : string),
    (forall m, last_chat tr <> Some (Failed m)) ->
    fst (while_loop cfg srv n text st tr)
    = Raise (CollaboratorError LanguageModel msg)
    <-> ends_on_failure (snd (while_loop cfg srv n text st tr)) msg.
Proof.
  induction n as [|n IH]; intros st tr msg Hpre.
  - simpl. split.
    + intros H. apply function_calls_only_raise in H. discriminate.
    + intros H. apply ends_on_failure_last_chat in H.
      exfalso. exact (Hpre _ H).
  - rewrite while_loop_step.
    destruct (@iteration_spec P cfg srv text st tr) as (evs & H1 & H2 & _).
    destruct (chat_completion srv tr (messages st)) as [resp|msg0] eqn:Hr.
    + assert (L : last_chat (snd (iteration cfg srv text st tr))
                  = Some (Replied resp)).
      { rewrite H1, last_chat_app. simpl. rewrite (last_chat_quiet H2).
        reflexivity. }
      pose proof (fun out => @iteration_after_reply P cfg srv text st tr resp
                               out msg Hr) as Hout.
      destruct (iteration cfg srv text st tr) as [[st1|out] tr1];
        simpl in L, Hout |- *.
      * apply IH. intros m. rewrite L. discriminate.
      * split.
        -- intros H. exfalso. exact (Hout out eq_refl H).
        -- intros H. apply ends_on_failure_last_chat in H.
           rewrite L in H. discriminate.
    + unfold iteration in *. rewrite Hr in *. simpl. split.
      * intros H. inversion H; subst. eexists. eexists. reflexivity.
      * intros H. apply ends_on_failure_last_chat in H.
        rewrite last_chat_app in H. simpl in H. inversion H. reflexivity.
Qed.

(** X5. A failure of the language model is not handled: the run raises
    the error of the model, with its message, exactly when the last call of
    the run is a request that the model failed to answer.  Nothing is
    called after such a request. *)
Theorem model_failure_propagates
        (P : Pydantic) (cfg : config) (srv : services) (text : string)
        (msg : string) :
  fst (process_transcript cfg srv text)
  = Raise (CollaboratorError LanguageModel msg)
  <-> ends_on_failure (snd (process_transcript cfg srv text)) msg.
Proof.
  unfold process_transcript. destruct (is_blank text).
  - simpl. split; [discriminate|].
    intros (before & m & H). destruct before; discriminate.
  - apply while_loop_failure. intros m. discriminate.
Qed.

Lemma model_failure_propagates_witness :
  fst (process_transcript (P := exact_types) default_config Outage.model_down
                          Scenario.transcript)
  = Raise (CollaboratorError LanguageModel "timeout").
Proof.
  apply (proj2 (model_failure_propagates exact_types default_config
                  Outage.model_down Scenario.transcript "timeout")).
  exists [], (messages (initial_state Outage.model_down Scenario.transcript)).
  vm_compute. reflexivity.
Defined.

(** ** What a returned result holds *)

Section Returned.
Context {P : Pydantic}.

Lemma function_calls_only_result (text : string) (acc : list candidate)
      (r : ProcessingResult) :
  function_calls_only text acc = Ok r ->
  raw_text r = text
  /\ competitor_advantage_mentioned r = false
  /\ bad_placement_mentioned r = false.
Proof.
  unfold function_calls_only.
  destruct (from_function_calls acc) as [mps|e]; simpl; [|discriminate].
  intros H. apply ProcessingResult_new_ok in H as (_ & H2 & H3 & H4).
  rewrite as_bool_bool in H2, H3. repeat split; congruence.
Qed.

Lemma final_answer_text (srv : services) (text : string)
      (acc : list candidate) (c : option string) (r : ProcessingResult) :
  final_answer srv text acc c = Ok r -> raw_text r = text.
Proof.
  unfold final_answer. destruct c as [c|]; [|discriminate].
  destruct (json_loads srv (json_text c)) as [d|].
  - intros H. apply build_result_ok in H as (fields & _ & _ & _ & _ & _ & H).
    exact H.
  - intros H. apply function_calls_only_result in H. tauto.
Qed.
End Returned.


Section ReturnedConfidence.
Context {P : Pydantic}.

Lemma MatchedProduct_new_valid (n c x : json) (mp : MatchedProduct) :
  MatchedProduct_new n c x = Ok mp -> valid_confidence mp.
Proof.
  unfold MatchedProduct_new.
  destruct (as_str n), (as_float c) as [conf|], (as_str x); try discriminate.
  destruct (Qle_bool 0 conf && Qle_bool conf 1) eqn:R; [|discriminate].
  intros H. inversion H; subst. clear H.
  apply in_range_iff in R as [R0 R1].
  unfold valid_confidence, round_confidence. simpl.
  destruct (round2_in_range R0 R1). repeat split; auto.
  apply round2_fixed; assumption.
Qed.

Lemma MatchedProduct_kwargs_valid (p : json) (mp : MatchedProduct) :
  MatchedProduct_kwargs p = Ok mp -> valid_confidence mp.
Proof.
  destruct p as [| | | | |kw]; simpl; try discriminate.
  destruct (lookup "product_name" kw), (lookup "confidence" kw),
    (lookup "context" kw); try discriminate.
  apply MatchedProduct_new_valid.
Qed.

Lemma comprehension_valid {A} (f : A -> result MatchedProduct) (l : list A)
      (mps : list MatchedProduct) :
  (forall a mp, f a = Ok mp -> valid_confidence mp) ->
  comprehension f l = Ok mps -> Forall valid_confidence mps.
Proof.
  intros Hf H. apply comprehension_ok in H.
  induction H as [|a mp l mps Ha _ IH]; constructor; eauto.
Qed.

Lemma final_answer_valid (srv : services) (text : string)
      (acc : list candidate) (c : option string) (r : ProcessingResult) :
  final_answer srv text acc c = Ok r ->
  Forall valid_confidence (matched_products r).
Proof.
  assert (FC : forall a mps, from_function_calls a = Ok mps ->
                             Forall valid_confidence mps).
  { intros a mps. apply comprehension_valid.
    intros p mp. apply MatchedProduct_new_valid. }
  unfold final_answer. destruct c as [c|]; [|discriminate].
  destruct (json_loads srv (json_text c)) as [d|].
  - intros H. apply build_result_ok in H as (fields & _ & H1 & H2 & _).
    destruct acc as [|c0 acc].
    + specialize (H2 eq_refl).
      destruct (lookup "matched_products" fields) as [v|].
      * destruct v; simpl in H2; try discriminate.
        -- destruct (String.eqb s ""); inversion H2. constructor.
        -- eapply comprehension_valid; [|exact H2].
           apply MatchedProduct_kwargs_valid.
        -- destruct fields0; inversion H2. constructor.
      * rewrite H2. constructor.
    + apply (FC (c0 :: acc)). apply H1. discriminate.
  - intros H. apply function_calls_only_ok in H. exact (FC _ _ H).
Qed.
End ReturnedConfidence.

(** X6. Every result that [process_transcript] returns carries the
    transcript it was given as [raw_text], and that text is not blank. *)
Theorem returned_result_keeps_text
        (P : Pydantic) (cfg : config) (srv : services) (text : string)
        (r : ProcessingResult) :
  fst (process_transcript cfg srv text) = Ok r ->
  raw_text r = text /\ is_blank (raw_text r) = false.
Proof.
  intros H. destruct (is_blank text) eqn:Hb.
  { unfold process_transcript in H. rewrite Hb in H. discriminate. }
  destruct (@process_transcript_spec P cfg srv text Hb) as (_ & _ & K).
  rewrite H in K.
  assert (E : raw_text r = text).
  { destruct (terminal_message _) as [m|].
    - symmetry in K. exact (final_answer_text _ _ _ _ K).
    - destruct K as [K|(e & K & _)]; [|discriminate].
      symmetry in K. apply function_calls_only_result in K. tauto. }
  rewrite E. auto.
Qed.

Lemma returned_result_keeps_text_witness :
  raw_text Scenario.one_search_result = Scenario.transcript
  /\ is_blank (raw_text Scenario.one_search_result) = false.
Proof.
  apply (@returned_result_keeps_text exact_types default_config
           Scenario.one_search Scenario.transcript).
  vm_compute. reflexivity.
Defined.

(** X7. Every product of a returned result, whether it comes from a search
    or from the JSON of the model, has a confidence between 0 and 1 that
    has two decimals. *)
Theorem returned_confidences_are_valid
        (P : Pydantic) (cfg : config) (srv : services) (text : string)
        (r : ProcessingResult) (mp : MatchedProduct) :
  fst (process_transcript cfg srv text) = Ok r ->
  In mp (matched_products r) ->
  (0 <= confidence mp)%Q /\ (confidence mp <= 1)%Q
  /\ round2 (confidence mp) = confidence mp.
Proof.
  intros H Hin. destruct (is_blank text) eqn:Hb.
  { unfold process_transcript in H. rewrite Hb in H. discriminate. }
  destruct (@process_transcript_spec P cfg srv text Hb) as (_ & _ & K).
  rewrite H in K.
  assert (V : Forall valid_confidence (matched_products r)).
  { destruct (terminal_message _) as [m|].
    - symmetry in K. exact (final_answer_valid _ _ _ _ K).
    - destruct K as [K|(e & K & _)]; [|discriminate].
      symmetry in K. apply function_calls_only_ok in K.
      eapply comprehension_valid; [|exact K].
      intros p mp0. apply MatchedProduct_new_valid. }
  rewrite Forall_forall in V. exact (V mp Hin).
Qed.

Lemma returned_confidences_are_valid_witness :
  (0 <= confidence Scenario.castrol_086)%Q
  /\ (confidence Scenario.castrol_086 <= 1)%Q
  /\ round2 (confidence Scenario.castrol_086) = confidence Scenario.castrol_086.
Proof.
  apply (@returned_confidences_are_valid exact_types default_config
           Scenario.one_search Scenario.transcript Scenario.one_search_result).
  - vm_compute. reflexivity.
  - left. reflexivity.
Defined.

(** ** A result without a final answer *)

Lemma while_loop_ok_rounds (P : Pydantic) (cfg : config) (srv : services)
      (text : string) (r : ProcessingResult) (n : nat) :
  forall (st : loop_state) (tr : trace),
    fst (while_loop cfg srv n text st tr) = Ok r ->
    terminal_message (snd (while_loop cfg srv n text st tr)) = None ->
    exists st',
      rounds cfg srv n text st tr
      = Some (st', snd (while_loop cfg srv n text st tr)).
Proof.
  induction n as [|n IH]; intros st tr Hok Hterm.
  - simpl. eauto.
  - rewrite while_loop_step in *. simpl rounds.
    destruct (@iteration_spec P cfg srv text st tr) as (evs & H1 & H2 & _ & H4).
    destruct (iteration cfg srv text st tr) as [[st1|out] tr1];
      simpl in H1, H4, Hok, Hterm |- *.
    + apply IH; assumption.
    + exfalso. subst tr1 out.
      rewrite terminal_message_after in Hterm by assumption.
      rewrite Hterm in H4. destruct H4 as (e & H4 & _). discriminate.
Qed.

(** X8. A result is returned without a final answer of the model only
    when the loop ran out: then the model was asked exactly ten times, each
    time it asked for tools, both flags are false and the products are
    exactly the candidates of the searches. *)
Theorem result_without_final_answer
        (P : Pydantic) (cfg : config) (srv : services) (text : string)
        (r : ProcessingResult) :
  let tr := snd (process_transcript cfg srv text) in
  fst (process_transcript cfg srv text) = Ok r ->
  terminal_message tr = None ->
  chat_calls tr = 10%nat
  /\ competitor_advantage_mentioned r = false
  /\ bad_placement_mentioned r = false
  /\ map as_candidate (matched_products r) = accumulated cfg tr.
Proof.
  intros tr Hok Hterm. subst tr.
  destruct (is_blank text) eqn:Hb.
  { unfold process_transcript in Hok. rewrite Hb in Hok. discriminate. }
  unfold process_transcript in *. rewrite Hb in *.
  destruct (@while_loop_ok_rounds P cfg srv text r max_iterations _ _ Hok Hterm)
    as [st' Hr].
  destruct (@rounds_spec P cfg srv text max_iterations _ _ _ _ Hr)
    as (K1 & K2 & K3 & _); try reflexivity; [constructor|].
  rewrite K1 in Hok. simpl in Hok.
  split; [exact K2|].
  destruct (function_calls_only_result _ _ Hok) as (_ & F1 & F2).
  split; [exact F1|]. split; [exact F2|].
  apply function_calls_only_ok in Hok.
  exact (proj2 (from_function_calls_ok (accumulated_from_search cfg K3) Hok)).
Qed.

Lemma result_without_final_answer_witness :
  chat_calls (snd (Scenario.run Scenario.never_done)) = 10%nat.
Proof.
  destruct (Scenario.run Scenario.never_done) as [out tr] eqn:E.
  destruct out as [r|e]; [|vm_compute in E; discriminate].
  assert (H1 : fst (Scenario.run Scenario.never_done) = Ok r)
    by (rewrite E; reflexivity).
  assert (H2 : snd (Scenario.run Scenario.never_done) = tr)
    by (rewrite E; reflexivity).
  destruct (@result_without_final_answer exact_types default_config
              Scenario.never_done Scenario.transcript r H1) as [H _].
  - vm_compute. reflexivity.
  - simpl. unfold Scenario.run in H2. rewrite H2 in H. exact H.
Defined.

(** ** The JSON part of the final message *)

Lemma find_from_absent (c : ascii) (s : string) (i : Z) :
  occurs c s = false -> find_from c s i = -1.
Proof.
  revert i. induction s as [|a s IH]; intros i; simpl; [reflexivity|].
  destruct (Ascii.eqb a c); simpl; [discriminate|]. apply IH.
Qed.

Lemma find_from_first (c : ascii) (a rest : string) (i : Z) :
  occurs c a = false ->
  find_from c (String.append a (String c rest)) i
  = i + Z.of_nat (String.length a).
Proof.
  revert i. induction a as [|x a IH]; intros i; simpl.
  - rewrite Ascii.eqb_refl. lia.
  - destruct (Ascii.eqb x c); simpl; [discriminate|].
    intros H. rewrite (IH (i + 1) H). lia.
Qed.

Lemma rfind_from_absent (c : ascii) (s : string) (i last : Z) :
  occurs c s = false -> rfind_from c s i last = last.
Proof.
  revert i last. induction s as [|a s IH]; intros i last; simpl; [reflexivity|].
  destruct (Ascii.eqb a c); simpl; [discriminate|]. apply IH.
Qed.

Lemma rfind_from_last (c : ascii) (a rest : string) (i last : Z) :
  occurs c rest = false ->
  rfind_from c (String.append a (String c rest)) i last
  = i + Z.of_nat (String.length a).
Proof.
  intros H. revert i last. induction a as [|x a IH]; intros i last; simpl.
  - rewrite Ascii.eqb_refl, (@rfind_from_absent c rest _ _ H). lia.
  - rewrite IH. lia.
Qed.

Lemma substring_skip (a s : string) (n : nat) :
  substring (String.length a) n (String.append a s) = substring 0 n s.
Proof. induction a as [|x a IH]; simpl; [reflexivity|exact IH]. Qed.

Lemma substring_take (b s : string) :
  substring 0 (String.length b) (String.append b s) = b.
Proof.
  induction b as [|x b IH]; simpl.
  - destruct s; reflexivity.
  - rewrite IH. reflexivity.
Qed.

Lemma length_append (a b : string) :
  String.length (String.append a b)
  = (String.length a + String.length b)%nat.
Proof. induction a as [|x a IH]; simpl; [reflexivity|]. rewrite IH. reflexivity. Qed.

Lemma append_assoc (a b c : string) :
  String.append (String.append a b) c = String.append a (String.append b c).
Proof. induction a as [|x a IH]; simpl; [reflexivity|]. rewrite IH. reflexivity. Qed.

(** X9. The text around the JSON object is dropped: when the final
    message is an object in braces with text before it that has no opening
    brace and text after it that has no closing brace, what is handed to
    [json.loads] is the object.  A message without an opening brace is
    handed over as it is. *)
Theorem json_text_drops_prose (before inner after c : string) :
  (occurs "{" before = false ->
   occurs "}" after = false ->
   json_text (String.append before
                (String.append (String "{" (String.append inner "}")) after))
   = String "{" (String.append inner "}"))
  /\ (occurs "{" c = false -> json_text c = c).
Proof.
  split.
  - intros Hb Ha.
    set (body := String "{" (String.append inner "}")).
    set (whole := String.append before (String.append body after)).
    assert (F : find whole "{" = Z.of_nat (String.length before)).
    { unfold find, whole, body. simpl String.append.
      rewrite (@find_from_first _ before _ 0 Hb). lia. }
    assert (R : rfind whole "}"
                = Z.of_nat (String.length before + S (String.length inner))).
    { unfold rfind.
      replace whole
        with (String.append (String.append before (String "{" inner))
                (String "}" after)).
      - rewrite (@rfind_from_last _ _ after 0 (-1) Ha), length_append.
        simpl String.length. lia.
      - unfold whole, body. rewrite !append_assoc. simpl.
        rewrite !append_assoc. reflexivity. }
    unfold json_text, slice. cbv zeta. rewrite !F, !R.
    assert (C : ((0 <=? Z.of_nat (String.length before))
                 && (Z.of_nat (String.length before)
                     <? Z.of_nat (String.length before
                                  + S (String.length inner)) + 1)) = true).
    { apply andb_true_iff. split; [apply Z.leb_le|apply Z.ltb_lt]; lia. }
    rewrite C.
    replace (Z.to_nat (Z.of_nat (String.length before)))
      with (String.length before) by lia.
    replace (Z.to_nat (Z.of_nat (String.length before
                                 + S (String.length inner)) + 1
                       - Z.of_nat (String.length before)))
      with (String.length body).
    2:{ unfold body. simpl. rewrite length_append. simpl. lia. }
    unfold whole. rewrite substring_skip. apply substring_take.
  - intros H. unfold json_text, find. rewrite (@find_from_absent _ c 0 H).
    reflexivity.
Qed.

Lemma json_text_drops_prose_witness :
  json_text (Decoder.py "Hotovo: {'matched_products': []} Konec.")
  = Decoder.py "{'matched_products': []}".
Proof.
  apply (proj1 (json_text_drops_prose "Hotovo: "
                  (Decoder.py "'matched_products': []") " Konec." ""));
    reflexivity.
Defined.

(** * Products and their embeddings *)

(** ** Product names *)

Lemma not_blank_strip (v : string) :
  is_blank v = false -> strip v <> EmptyString.
Proof.
  unfold is_blank. intros H. apply orb_false_iff in H as [_ H].
  apply String.eqb_neq. exact H.
Qed.

(** X10. A product that passes validation has a name that is not blank
    and has no whitespace at either end: the name given is stored
    stripped.  A dict whose name is blank is refused. *)
Theorem product_names_are_stripped (P : Pydantic) :
  (forall item p,
      Product_kwargs item = Ok p ->
      is_blank (p_name p) = false /\ strip (p_name p) = p_name p)
  /\ (forall kw i n name,
         lookup "id" kw = Some i ->
         lookup "name" kw = Some n ->
         as_str n = Some name ->
         is_blank name = true ->
         Product_kwargs (JObj kw) = Raise ValidationError).
Proof.
  split.
  - intros item p. destruct item as [| | | | |kw]; simpl; try discriminate.
    destruct (lookup "id" kw) as [i|], (lookup "name" kw) as [n|];
      try discriminate.
    destruct (as_str i) as [i'|], (as_str n) as [n'|]; try discriminate.
    unfold name_not_empty. destruct (is_blank n') eqn:Hb; [discriminate|].
    destruct (match lookup "embedding" kw with
              | Some v => embedding_field v
              | None => Ok None
              end) as [e|e]; simpl; [|discriminate].
    intros H. inversion H; subst. simpl.
    apply not_blank_strip in Hb.
    split; [apply strip_not_blank; exact Hb|apply strip_idempotent].
  - intros kw i n name Hi Hn Hs Hb. simpl. rewrite Hi, Hn, Hs.
    unfold name_not_empty. rewrite Hb.
    destruct (as_str i); reflexivity.
Qed.

Lemma product_names_are_stripped_witness :
  exists p,
    Product_kwargs (P := exact_types)
      (JObj [("id", JStr "CASTROL_1"); ("name", JStr "  CASTROL EDGE 1 lt ")])
    = Ok p
    /\ p_name p = "CASTROL EDGE 1 lt"
    /\ strip (p_name p) = p_name p.
Proof.
  eexists. split; [vm_compute; reflexivity|]. split; [reflexivity|].
  apply (proj1 (product_names_are_stripped exact_types)
           (JObj [("id", JStr "CASTROL_1");
                  ("name", JStr "  CASTROL EDGE 1 lt ")])).
  vm_compute. reflexivity.
Defined.

(** ** Batches of texts *)

Lemma in_firstn {A} (x : A) (n : nat) (l : list A) :
  In x (firstn n l) -> In x l.
Proof.
  revert l. induction n as [|n IH]; intros [|a l]; simpl; try tauto.
  intros [H|H]; auto.
Qed.

Lemma in_skipn {A} (x : A) (n : nat) (l : list A) :
  In x (skipn n l) -> In x l.
Proof.
  revert l. induction n as [|n IH]; intros [|a l]; simpl; try tauto.
  intros H. auto.
Qed.

(** Cutting a list in pieces of [step] elements loses nothing. *)
Lemma pieces_concat (step : nat) (k : nat) :
  forall {A} (l : list A),
    (List.length l <= k * step)%nat ->
    List.concat (map (fun j => firstn step (skipn (j * step) l)) (seq 0 k)) = l.
Proof.
  induction k as [|k IH]; intros A l Hl.
  - simpl in *. destruct l; [reflexivity|simpl in Hl; lia].
  - cbn [seq map List.concat]. rewrite <- seq_shift, map_map.
    simpl skipn at 1.
    transitivity (firstn step l ++ skipn step l); [|apply firstn_skipn].
    f_equal. rewrite <- (IH _ (skipn step l)).
    + f_equal. apply map_ext. intros j. rewrite skipn_skipn.
      f_equal. f_equal. lia.
    + rewrite length_skipn. simpl in Hl. lia.
Qed.

Lemma py_range_covers (n step : nat) :
  (0 < step)%nat -> (n <= (n + step - 1) / step * step)%nat.
Proof.
  intros H.
  pose proof (Nat.div_mod_eq (n + step - 1) step) as E.
  pose proof (Nat.mod_upper_bound (n + step - 1) step ltac:(lia)) as B.
  nia.
Qed.

Lemma batches_concat (texts : list string) (step : nat) :
  (0 < step)%nat ->
  List.concat (map (fun i => firstn step (skipn i texts))
              (py_range (List.length texts) step)) = texts.
Proof.
  intros H. unfold py_range. rewrite map_map.
  apply pieces_concat. apply py_range_covers. exact H.
Qed.

Lemma cleaned_app (a b : list string) :
  cleaned (a ++ b) = cleaned a ++ cleaned b.
Proof. unfold cleaned. rewrite filter_app, map_app. reflexivity. Qed.

Lemma cleaned_concat (batches : list (list string)) :
  flat_map cleaned batches = cleaned (List.concat batches).
Proof.
  induction batches as [|b batches IH]; simpl; [reflexivity|].
  rewrite cleaned_app, IH. reflexivity.
Qed.

Lemma cleaned_length (batch : list string) :
  (List.length (cleaned batch) <= List.length batch)%nat.
Proof.
  unfold cleaned. rewrite length_map.
  induction batch as [|t batch IH]; simpl; [lia|].
  destruct (negb (is_blank t)); simpl; lia.
Qed.

Lemma cleaned_texts (batch : list string) (t : string) :
  In t (cleaned batch) ->
  exists t0, In t0 batch /\ t = strip t0
             /\ strip t = t /\ is_blank t = false.
Proof.
  unfold cleaned. intros H. apply in_map_iff in H as (t0 & <- & H).
  apply filter_In in H as [H1 H2]. apply negb_true_iff in H2.
  exists t0. apply not_blank_strip in H2.
  repeat split; auto using strip_idempotent, strip_not_blank.
Qed.

(** What the loop over the batches sends and returns. *)
Lemma embed_batches_spec (create : batch_service)
      (batches : list (list string)) :
  forall embeddings sent,
  exists new,
    snd (embed_batches create batches embeddings sent) = sent ++ new
    /\ (List.length new <= List.length batches)%nat
    /\ Forall (fun b => b <> [] /\ exists batch, In batch batches
                                              /\ b = cleaned batch) new
    /\ forall res,
         fst (embed_batches create batches embeddings sent) = Ok res ->
         List.concat new = flat_map cleaned batches
         /\ (one_per_text create ->
             List.length res
             = (List.length embeddings + List.length (List.concat new))%nat).
Proof.
  induction batches as [|batch rest IH]; intros embeddings sent.
  - exists []. simpl. rewrite app_nil_r.
    repeat split; auto. intros _. inversion H. lia.
  - simpl. destruct (cleaned batch) as [|c cs] eqn:Ec.
    + destruct (IH embeddings sent) as (new & H1 & H2 & H3 & H4).
      exists new. split; [exact H1|]. split; [lia|]. split; [|exact H4].
      eapply Forall_impl; [|exact H3].
      intros b (Hb & batch0 & Hin & E). split; [exact Hb|]. eauto.
    + destruct (create sent (c :: cs)) as [answer|msg] eqn:Er.
      * destruct (IH (embeddings ++ answer) (sent ++ [c :: cs]))
          as (new & H1 & H2 & H3 & H4).
        exists ((c :: cs) :: new). rewrite H1, <- app_assoc.
        split; [reflexivity|]. split; [simpl; lia|]. split.
        -- constructor.
           ++ split; [discriminate|]. exists batch. rewrite Ec. auto.
           ++ eapply Forall_impl; [|exact H3].
              intros b (Hb & batch0 & Hin & E). split; [exact Hb|]. eauto.
        -- intros res Hres. destruct (H4 res Hres) as [K1 K2].
           split; [simpl; rewrite K1; reflexivity|].
           intros Hone. rewrite (K2 Hone), length_app, (Hone _ _ _ Er).
           cbn [List.concat]. rewrite length_app. lia.
      * exists [c :: cs]. simpl. split; [reflexivity|]. split; [lia|]. split.
        -- constructor; [|constructor]. split; [discriminate|].
           exists batch. rewrite Ec. auto.
        -- discriminate.
Qed.

Lemma embed_batches_nothing (create : batch_service)
      (batches : list (list string)) (embeddings : list embedding)
      (sent : list (list string)) :
  Forall (fun b => cleaned b = []) batches ->
  embed_batches create batches embeddings sent = (Ok embeddings, sent).
Proof.
  induction 1 as [|b batches Hb _ IH]; simpl; [reflexivity|].
  rewrite Hb. exact IH.
Qed.

Lemma cleaned_blank (batch : list string) :
  (forall t, In t batch -> is_blank t = true) -> cleaned batch = [].
Proof.
  unfold cleaned. induction batch as [|t batch IH]; intros H; simpl;
    [reflexivity|].
  rewrite (H t (or_introl eq_refl)). simpl. apply IH.
  intros t' Ht'. apply H. right. exact Ht'.
Qed.

Lemma batch_of_texts (texts batch : list string) (step n : nat) :
  In batch (map (fun i => firstn step (skipn i texts)) (py_range n step)) ->
  (List.length batch <= step)%nat /\ forall t, In t batch -> In t texts.
Proof.
  intros H. apply in_map_iff in H as (i & <- & _).
  split; [apply firstn_le_length|].
  intros t Ht. apply in_firstn in Ht. apply in_skipn in Ht. exact Ht.
Qed.

(** X11. A list of texts that are all blank is not an error: unlike the
    empty list, which is refused, it yields no embedding at all, and the
    service is not called. *)
Theorem blank_texts_are_skipped
        (create : batch_service) (texts : list string) (batch_size : positive) :
  texts <> [] ->
  (forall t, In t texts -> is_blank t = true) ->
  generate_embeddings_batch create texts batch_size = (Ok [], []).
Proof.
  intros Hne Hblank. unfold generate_embeddings_batch.
  destruct texts as [|t0 texts0] eqn:E; [contradiction|]. rewrite <- E in *.
  apply embed_batches_nothing. apply Forall_forall. intros batch Hin.
  apply batch_of_texts in Hin as [_ Hin].
  apply cleaned_blank. intros t Ht. apply Hblank, Hin, Ht.
Qed.

Lemma blank_texts_are_skipped_witness :
  generate_embeddings_batch (fun _ _ => Failed "down") [""; "   "] 16
  = (Ok [], []).
Proof.
  apply blank_texts_are_skipped.
  - discriminate.
  - intros t [<-|[<-|[]]]; reflexivity.
Defined.

(** X12. The embedding service is never sent an empty batch, a batch with
    more than [batch_size] texts, or a text that is blank or has
    whitespace at either end: every text sent is one of the given texts,
    stripped. *)
Theorem batch_requests_are_clean
        (create : batch_service) (texts : list string) (batch_size : positive)
        (b : list string) :
  In b (snd (generate_embeddings_batch create texts batch_size)) ->
  b <> []
  /\ (List.length b <= Pos.to_nat batch_size)%nat
  /\ forall t, In t b ->
       (exists t0, In t0 texts /\ t = strip t0)
       /\ strip t = t /\ is_blank t = false.
Proof.
  unfold generate_embeddings_batch.
  destruct texts as [|t0 texts0] eqn:E; [intros []|]. rewrite <- E. clear E.
  destruct (embed_batches_spec create
              (map (fun i => firstn (Pos.to_nat batch_size) (skipn i texts))
                   (py_range (List.length texts) (Pos.to_nat batch_size)))
              [] []) as (new & H1 & _ & H3 & _).
  rewrite H1. simpl. intros Hin.
  rewrite Forall_forall in H3.
  destruct (H3 b Hin) as (Hne & batch & Hb & ->).
  apply batch_of_texts in Hb as [Hlen Hsub].
  split; [exact Hne|]. split.
  - pose proof (cleaned_length batch). lia.
  - intros t Ht. apply cleaned_texts in Ht as (t1 & H5 & H6 & H7 & H8).
    repeat split; auto. exists t1. auto.
Qed.

Lemma batch_requests_are_clean_witness :
  ["a"; "b c"] <> []
  /\ (List.length ["a"; "b c"] <= Pos.to_nat 3)%nat
  /\ forall t, In t ["a"; "b c"] ->
       (exists t0, In t0 [" a"; ""; "b c "; "d"] /\ t = strip t0)
       /\ strip t = t /\ is_blank t = false.
Proof.
  apply (@batch_requests_are_clean (fun _ input => Replied (map (fun _ => []) input))
           [" a"; ""; "b c "; "d"] 3).
  vm_compute. left. reflexivity.
Defined.

(** X13. When [generate_embeddings_batch] returns, the texts it sent, batch
    after batch, are the given texts that are not blank, stripped and in
    the order given; and whether it returns or not, it calls the service
    at most once per batch of [batch_size] texts. *)
Theorem batches_keep_order
        (create : batch_service) (texts : list string) (batch_size : positive) :
  let run := generate_embeddings_batch create texts batch_size in
  (List.length (snd run)
   <= (List.length texts + Pos.to_nat batch_size - 1) / Pos.to_nat batch_size)%nat
  /\ forall embeddings,
       fst run = Ok embeddings ->
       List.concat (snd run) = cleaned texts.
Proof.
  intros run. subst run. unfold generate_embeddings_batch.
  destruct texts as [|t0 texts0] eqn:E.
  { split; [simpl; lia|discriminate]. }
  rewrite <- E. clear E.
  destruct (embed_batches_spec create
              (map (fun i => firstn (Pos.to_nat batch_size) (skipn i texts))
                   (py_range (List.length texts) (Pos.to_nat batch_size)))
              [] []) as (new & H1 & H2 & _ & H4).
  rewrite H1. simpl. split.
  - unfold py_range in H2. rewrite !length_map, length_seq in H2. exact H2.
  - intros embeddings Hok. destruct (H4 _ Hok) as [K _].
    rewrite K, cleaned_concat, batches_concat by lia. reflexivity.
Qed.

Lemma batches_keep_order_witness :
  List.concat
    (snd (generate_embeddings_batch
            (fun _ input => Replied (map (fun _ => []) input))
            [" a"; ""; "b c "; "d"] 2))
  = ["a"; "b c"; "d"].
Proof.
  destruct (batches_keep_order
              (fun _ input => Replied (map (fun _ => @nil Q) input))
              [" a"; ""; "b c "; "d"] 2) as [_ H].
  rewrite (H [[]; []; []]); reflexivity.
Defined.

Lemma filter_shorter {A} (f : A -> bool) (l : list A) (x : A) :
  In x l -> f x = false ->
  (List.length (filter f l) < List.length l)%nat.
Proof.
  assert (Hle : forall l', (List.length (filter f l') <= List.length l')%nat).
  { induction l' as [|a l' IH]; simpl; [lia|].
    destruct (f a); simpl; lia. }
  induction l as [|a l IH]; simpl; [tauto|].
  intros [->|Hin] Hx.
  - rewrite Hx. specialize (Hle l). lia.
  - specialize (IH Hin Hx). destruct (f a); simpl; lia.
Qed.

(** X14. With a service that answers one embedding per text, the number of
    embeddings returned is the number of texts that are not blank.  It is
    therefore smaller than the number of texts as soon as one text is
    blank: the embeddings do not line up with the texts any more. *)
Theorem one_embedding_per_text_that_is_not_blank
        (create : batch_service) (texts : list string) (batch_size : positive)
        (embeddings : list embedding) :
  one_per_text create ->
  fst (generate_embeddings_batch create texts batch_size) = Ok embeddings ->
  List.length embeddings
  = List.length (filter (fun t => negb (is_blank t)) texts)
  /\ (forall t, In t texts -> is_blank t = true ->
                (List.length embeddings < List.length texts)%nat).
Proof.
  intros Hone Hok.
  assert (E : List.length embeddings
              = List.length (filter (fun t => negb (is_blank t)) texts)).
  { pose proof (batches_keep_order create texts batch_size) as [_ K].
    specialize (K _ Hok).
    unfold generate_embeddings_batch in *.
    destruct texts as [|t0 texts0] eqn:Et; [discriminate|]. rewrite <- Et in *.
    destruct (embed_batches_spec create
                (map (fun i => firstn (Pos.to_nat batch_size) (skipn i texts))
                     (py_range (List.length texts) (Pos.to_nat batch_size)))
                [] []) as (new & H1 & _ & _ & H4).
    destruct (H4 _ Hok) as [_ L]. rewrite (L Hone). simpl.
    rewrite H1 in K. simpl in K. rewrite K. unfold cleaned.
    rewrite length_map. reflexivity. }
  split; [exact E|].
  intros t Hin Hb. rewrite E.
  apply filter_shorter with (x := t); [exact Hin|].
  rewrite Hb. reflexivity.
Qed.

Lemma one_embedding_per_text_that_is_not_blank_witness :
  (List.length [@nil Q; []; []] < List.length [" a"; ""; "b c "; "d"])%nat.
Proof.
  destruct (@one_embedding_per_text_that_is_not_blank
              (fun _ input => Replied (map (fun _ => @nil Q) input))
              [" a"; ""; "b c "; "d"] 2 [[]; []; []]) as [_ H].
  - intros sent input answer E. inversion E. apply length_map.
  - reflexivity.
  - apply (H ""); [right; left; reflexivity|reflexivity].
Defined.

(** ** Embeddings for the catalogue *)

Lemma cleaned_clean (texts : list string) :
  Forall (fun t => is_blank t = false /\ strip t = t) texts ->
  cleaned texts = texts.
Proof.
  unfold cleaned. induction 1 as [|t texts [Hb Hs] _ IH]; simpl; [reflexivity|].
  rewrite Hb. simpl. rewrite Hs, IH. reflexivity.
Qed.

Lemma assign_embeddings_all (products : list Product) :
  forall embeddings,
    List.length embeddings = List.length products ->
    map p_id (assign_embeddings products embeddings) = map p_id products
    /\ map p_name (assign_embeddings products embeddings) = map p_name products
    /\ map p_embedding (assign_embeddings products embeddings)
       = map Some embeddings.
Proof.
  induction products as [|p ps IH]; intros [|e es] H; simpl in *;
    try discriminate; [auto|].
  destruct (IH es ltac:(lia)) as (H1 & H2 & H3).
  rewrite H1, H2, H3. auto.
Qed.

(** X15. For products whose names are validated (not blank, stripped) and
    a service that answers one embedding per text, [generate_embeddings]
    sends exactly the names of the products, in order, and gives every
    product the embedding at its own position: names and identifiers are
    unchanged and no product is left without an embedding. *)
Theorem catalogue_embeddings_line_up
        (create : batch_service) (products out : list Product)
        (sent : list (list string)) :
  one_per_text create ->
  Forall (fun p => is_blank (p_name p) = false /\ strip (p_name p) = p_name p)
         products ->
  generate_embeddings create products = (Ok out, sent) ->
  List.concat sent = map p_name products
  /\ map p_id out = map p_id products
  /\ map p_name out = map p_name products
  /\ exists embeddings,
       generate_embeddings_batch create (map p_name products) 16
       = (Ok embeddings, sent)
       /\ List.length embeddings = List.length products
       /\ map p_embedding out = map Some embeddings.
Proof.
  intros Hone Hnames. unfold generate_embeddings.
  destruct (generate_embeddings_batch create (map p_name products) 16)
    as [[embeddings|e] sent0] eqn:E; [|discriminate].
  intros H. inversion H; subst. clear H.
  assert (Hc : cleaned (map p_name products) = map p_name products).
  { apply cleaned_clean. apply Forall_map. exact Hnames. }
  pose proof (batches_keep_order create (map p_name products) 16) as [_ K].
  rewrite E in K. simpl in K. specialize (K _ eq_refl). rewrite Hc in K.
  destruct (@one_embedding_per_text_that_is_not_blank create
              (map p_name products) 16 embeddings Hone) as [L _].
  { rewrite E. reflexivity. }
  assert (Hlen : List.length embeddings = List.length products).
  { rewrite L. change (filter (fun t => negb (is_blank t)) (map p_name products))
      with (filter (fun t => negb (is_blank t)) (map p_name products)).
    pose proof (f_equal (@List.length string) Hc) as M.
    unfold cleaned in M. rewrite !length_map in M. exact M. }
  destruct (assign_embeddings_all products embeddings Hlen) as (A1 & A2 & A3).
  split; [exact K|]. split; [exact A1|]. split; [exact A2|].
  exists embeddings. auto.
Qed.

Lemma catalogue_embeddings_line_up_witness :
  List.concat [["CASTROL EDGE"; "SHERON"]]
  = map p_name
      [ {| p_id := "A"; p_name := "CASTROL EDGE"; p_embedding := None |};
        {| p_id := "B"; p_name := "SHERON"; p_embedding := None |} ]
  /\ map p_id
       [ {| p_id := "A"; p_name := "CASTROL EDGE";
            p_embedding := Some [12 # 1] |};
         {| p_id := "B"; p_name := "SHERON"; p_embedding := Some [6 # 1] |} ]
     = map p_id
         [ {| p_id := "A"; p_name := "CASTROL EDGE"; p_embedding := None |};
           {| p_id := "B"; p_name := "SHERON"; p_embedding := None |} ].
Proof.
  destruct (@catalogue_embeddings_line_up
              (fun _ input =>
                 Replied (map (fun t => [Z.of_nat (String.length t) # 1]) input))
              [ {| p_id := "A"; p_name := "CASTROL EDGE"; p_embedding := None |};
                {| p_id := "B"; p_name := "SHERON"; p_embedding := None |} ]
              [ {| p_id := "A"; p_name := "CASTROL EDGE";
                   p_embedding := Some [12 # 1] |};
                {| p_id := "B"; p_name := "SHERON";
                   p_embedding := Some [6 # 1] |} ]
              [["CASTROL EDGE"; "SHERON"]]) as (H1 & H2 & _).
  - intros sent input answer E. inversion E. apply length_map.
  - repeat constructor.
  - vm_compute. reflexivity.
  - split; [exact H1|exact H2].
Defined.

(** ** The configuration check *)

Lemma first_unset_spec (items : list (string * string)) :
  match first_unset items with
  | None => Forall (fun kv => is_unset (snd kv) = false) items
  | Some key =>
      exists before value after,
        items = before ++ (key, value) :: after
        /\ is_unset value = true
        /\ Forall (fun kv => is_unset (snd kv) = false) before
  end.
Proof.
  induction items as [|[k v] items IH]; simpl; [constructor|].
  destruct (is_unset v) eqn:Hv.
  - exists [], v, items. split; [reflexivity|]. split; [exact Hv|constructor].
  - destruct (first_unset items) as [key|].
    + destruct IH as (before & value & after & -> & H1 & H2).
      exists ((k, v) :: before), value, after.
      split; [reflexivity|]. split; [exact H1|]. constructor; [exact Hv|exact H2].
    + constructor; [exact Hv|exact IH].
Qed.

(** X16. The configuration is accepted exactly when each of the four
    required values is set, that is, not empty and not a value that starts
    with [YOUR_]; it is then reported without a message.  Otherwise the
    message names the first required value, in the order of the table,
    that is not set. *)
Theorem validate_config_names_first_unset (c : azure_settings) :
  (fst (validate_config c) = true
   <-> Forall (fun kv => is_unset (snd kv) = false) (required_configs c))
  /\ (fst (validate_config c) = true -> snd (validate_config c) = None)
  /\ (fst (validate_config c) = false ->
      exists before key value after,
        required_configs c = before ++ (key, value) :: after
        /\ is_unset value = true
        /\ Forall (fun kv => is_unset (snd kv) = false) before
        /\ snd (validate_config c)
           = Some (String.append "Configuration error: "
                     (String.append key
                        " is not set. Please check your .env file."))).
Proof.
  unfold validate_config.
  pose proof (first_unset_spec (required_configs c)) as H.
  destruct (first_unset (required_configs c)) as [key|]; simpl.
  - destruct H as (before & value & after & E & H1 & H2).
    split; [|split].
    + split; [discriminate|]. intros F. rewrite E in F.
      apply Forall_app in F as [_ F]. inversion F; subst. simpl in *.
      congruence.
    + discriminate.
    + intros _. exists before, key, value, after. auto.
  - split; [|split]; [tauto|reflexivity|discriminate].
Qed.

Lemma validate_config_names_first_unset_witness :
  exists before key value after,
    required_configs
      {| AZURE_OPENAI_ENDPOINT := "https://example.openai.azure.com/";
         AZURE_OPENAI_API_KEY := "YOUR_AZURE_OPENAI_API_KEY";
         AZURE_SEARCH_ENDPOINT := "";
         AZURE_SEARCH_API_KEY := "key" |}
    = before ++ (key, value) :: after
    /\ is_unset value = true
    /\ Forall (fun kv => is_unset (snd kv) = false) before
    /\ Some "Configuration error: AZURE_OPENAI_API_KEY is not set. Please check your .env file."
       = Some (String.append "Configuration error: "
                 (String.append key
                    " is not set. Please check your .env file.")).
Proof.
  exact (proj2 (proj2 (validate_config_names_first_unset
                         {| AZURE_OPENAI_ENDPOINT :=
                              "https://example.openai.azure.com/";
                            AZURE_OPENAI_API_KEY := "YOUR_AZURE_OPENAI_API_KEY";
                            AZURE_SEARCH_ENDPOINT := "";
                            AZURE_SEARCH_API_KEY := "key" |})) eq_refl).
Defined.
